(** * sketch.js: face data publisher over a reconnecting WebSocket

    A shallow embedding of [src/sketch.js] (p5.js sketch, Face-API.js
    detections forwarded to TouchDesigner over a WebSocket) and the
    properties of its connection handling, change filter and formatter.

    Conventions of the embedding:
    - the program's globals ([detections], [socket], [lastSentData],
      [reconnectInterval]) are fields of a [World] record, next to the part
      of the browser the program talks to (the WebSocket objects, the
      interval timers, the clock, the console, the canvas);
    - a function of the sketch is a computation in the monad [M], which
      threads the world and may complete abruptly with a thrown error;
      whatever was written before the throw stays written;
    - a browser callback (socket events, timer ticks, the p5 frame) is an
      [Event]; [handle] runs the matching handler of the sketch;
    - JavaScript numbers are IEEE doubles; the sketch only copies, prints
      and tests them, so the number type and those operations are an
      interface ([NumberModel]) and every theorem holds for any
      implementation of it. *)

From Stdlib Require Import ZArith List String Ascii Bool Lia PeanoNat DecimalString.
From Stdlib Require Import RelationClasses.
Import ListNotations.
Open Scope string_scope.

Set Implicit Arguments.
Set Warnings "-register-all".

(* ================================================================= *)
(** ** JavaScript values *)

(** What the sketch needs of the Number type. *)
Class NumberModel : Type := {
  number : Type;
  Number_zero : number;                    (* +0 *)
  Number_one : number;
  Number_NaN : number;
  Number_ofString : string -> number;      (* StringToNumber *)
  Number_isFinite : number -> bool;        (* false on NaN, +Infinity, -Infinity *)
  Number_toString : number -> string;      (* Number::toString, radix 10 *)
  Number_toBoolean : number -> bool;       (* false on +0, -0 and NaN *)
  Number_percent : number -> string        (* (n * 100).toFixed(1) *)
}.

Section Sketch.
Context {NM : NumberModel}.

(** Plain data, as Face-API.js hands it over: no functions, no cycles.
    An object lists its own enumerable properties in insertion order. *)
Inductive value : Type :=
| VUndefined
| VNull
| VBool (b : bool)
| VNum (n : number)
| VStr (s : string)
| VArr (items : list value)
| VObj (props : list (string * value)).

(** [jsonData] and [lastSentData] hold a string, [undefined] or [null]. *)
Inductive strval : Type :=
| SNull
| SUndefined
| SString (s : string).

Inductive Error : Type :=
| TypeError (msg : string)
| InvalidStateError
| OtherError (msg : string).

(** Completion of an evaluation: a value, or an exception. *)
Inductive completion (A : Type) : Type :=
| Normal (a : A)
| Throw (e : Error).
Arguments Normal {A} a.
Arguments Throw {A} e.

(** ToBoolean, as used by [!x], [x || y] and [x ? y : z]. *)
Definition ToBoolean (v : value) : bool :=
  match v with
  | VUndefined | VNull => false
  | VBool b => b
  | VNum n => Number_toBoolean n
  | VStr s => negb (s =? EmptyString)
  | VArr _ | VObj _ => true
  end.

Fixpoint lookup (k : string) (props : list (string * value)) : value :=
  match props with
  | [] => VUndefined
  | (k', v) :: rest => if k =? k' then v else lookup k rest
  end.

(** [v.k] for the property names the sketch reads (gender,
    genderProbability, age, alignedRect, box, x, y, width, height,
    expressions): none of them is inherited from a built-in prototype, so
    on a primitive or an array the result is [undefined]; on [undefined]
    and [null] the access throws. *)
Definition Get (v : value) (k : string) : completion value :=
  match v with
  | VUndefined => Throw (TypeError "Cannot read properties of undefined")
  | VNull => Throw (TypeError "Cannot read properties of null")
  | VObj props => Normal (lookup k props)
  | VBool _ | VNum _ | VStr _ | VArr _ => Normal VUndefined
  end.

(** [a !== b] on strings and nullish values. *)
Definition strict_neq (a b : strval) : bool :=
  match a, b with
  | SNull, SNull => false
  | SUndefined, SUndefined => false
  | SString s, SString t => negb (s =? t)
  | _, _ => true
  end.

(* ----------------------------------------------------------------- *)
(** *** JSON.stringify *)

Definition dquote : string := String (ascii_of_nat 34) EmptyString.
Definition backslash : string := String (ascii_of_nat 92) EmptyString.

Definition hex_digit (n : nat) : string :=
  String (nth n (list_ascii_of_string "0123456789abcdef") "0"%char) EmptyString.

(** QuoteJSONString, one code unit at a time (strings are byte strings
    here; the escapes concern the ASCII range only). *)
Definition quote_char (c : ascii) : string :=
  let n := nat_of_ascii c in
  if (n =? 34)%nat then backslash ++ dquote
  else if (n =? 92)%nat then backslash ++ backslash
  else if (n =? 8)%nat then backslash ++ "b"
  else if (n =? 9)%nat then backslash ++ "t"
  else if (n =? 10)%nat then backslash ++ "n"
  else if (n =? 12)%nat then backslash ++ "f"
  else if (n =? 13)%nat then backslash ++ "r"
  else if (n <? 32)%nat
       then backslash ++ "u00" ++ hex_digit (n / 16) ++ hex_digit (n mod 16)
  else String c EmptyString.

Fixpoint quote_chars (s : string) : string :=
  match s with
  | EmptyString => EmptyString
  | String c rest => quote_char c ++ quote_chars rest
  end.

Definition QuoteJSONString (s : string) : string :=
  dquote ++ quote_chars s ++ dquote.

Fixpoint join (sep : string) (parts : list string) : string :=
  match parts with
  | [] => EmptyString
  | [p] => p
  | p :: rest => p ++ sep ++ join sep rest
  end.

(** SerializeJSONProperty: [None] is [undefined].  A property whose value
    is [undefined] is left out of an object and printed as null in an
    array; a number that is not finite is printed as null. *)
Fixpoint SerializeJSONProperty (v : value) : option string :=
  match v with
  | VUndefined => None
  | VNull => Some "null"
  | VBool b => Some (if b then "true" else "false")
  | VNum n => Some (if Number_isFinite n then Number_toString n else "null")
  | VStr s => Some (QuoteJSONString s)
  | VArr items =>
      Some ("[" ++ join ","
              (map (fun x => match SerializeJSONProperty x with
                             | Some t => t
                             | None => "null"
                             end) items) ++ "]")
  | VObj props =>
      Some ("{" ++ join ","
              (flat_map (fun kv => match SerializeJSONProperty (snd kv) with
                                   | Some t => [QuoteJSONString (fst kv) ++ ":" ++ t]
                                   | None => []
                                   end) props) ++ "}")
  end.

Definition JSON_stringify (v : value) : strval :=
  match SerializeJSONProperty v with
  | Some t => SString t
  | None => SUndefined
  end.

(** What [socket.send(x)] puts on the wire: ToString of its argument. *)
Definition ToString_strval (x : strval) : string :=
  match x with
  | SNull => "null"
  | SUndefined => "undefined"
  | SString s => s
  end.

(** ToString and ToNumber, for the template literals and the product
    [detection.genderProbability * 100] of [draw]. *)
Definition nat_to_string (n : nat) : string :=
  NilZero.string_of_uint (Nat.to_uint n).

Fixpoint ToString (v : value) : string :=
  match v with
  | VUndefined => "undefined"
  | VNull => "null"
  | VBool b => if b then "true" else "false"
  | VNum n => Number_toString n
  | VStr s => s
  | VArr items =>
      join "," (map (fun x => match x with
                              | VUndefined | VNull => EmptyString
                              | _ => ToString x
                              end) items)
  | VObj _ => "[object Object]"
  end.

Definition ToNumber (v : value) : number :=
  match v with
  | VUndefined => Number_NaN
  | VNull => Number_zero
  | VBool b => if b then Number_one else Number_zero
  | VNum n => n
  | VStr s => Number_ofString s
  | VArr _ | VObj _ => Number_ofString (ToString v)
  end.

(* ================================================================= *)
(** ** The world: globals of the sketch and the browser around it *)

Inductive ReadyState : Type := CONNECTING | OPEN | CLOSING | CLOSED.

Definition ReadyState_eqb (a b : ReadyState) : bool :=
  match a, b with
  | CONNECTING, CONNECTING | OPEN, OPEN | CLOSING, CLOSING | CLOSED, CLOSED => true
  | _, _ => false
  end.

Record WebSocket : Type := {
  url : string;
  readyState : ReadyState
}.

(** The two callbacks the sketch hands to [setInterval]. *)
Inductive Callback : Type :=
| Reconnect      (* () => setupWebSocket(), line 34 *)
| DetectFaces.   (* the detection loop, line 116 *)

Record Timer : Type := {
  handle : positive;      (* setInterval returns an integer greater than zero *)
  callback : Callback;
  delay : Z               (* milliseconds *)
}.

(** Where the async function [setup] stands. *)
Inductive SetupPC : Type := NotStarted | LoadingModels | Finished.

Inductive LogEntry : Type :=
| LogAttempt
| LogConnected
| LogSocketError
| LogClosed (code : Z) (reason : string)
| LogWillReconnect
| LogSettingUp
| LogFaceApiMissing
| LogModelsLoaded
| LogModelsError (e : Error)
| LogDetectionError (e : Error)
| LogSent (msg : string).

(** What [draw] puts on the canvas.  Colours, stroke settings and the
    position of the texts are not recorded. *)
Inductive ScreenItem : Type :=
| VideoFrame
| FaceBox (x y width height : value)
| Text (msg : string).

Record World : Type := {
  (* globals of sketch.js *)
  detections : list value;
  socket : option nat;                  (* undefined, or a WebSocket of [sockets] *)
  lastSentData : strval;
  reconnectInterval : option positive;  (* undefined, or a timer handle *)
  (* the browser *)
  sockets : list WebSocket;             (* every WebSocket created so far *)
  wire : list (nat * string);           (* frames transmitted: socket, text *)
  timers : list Timer;                  (* the active interval timers *)
  next_handle : positive;
  clock : number;                       (* what Date.now() returns *)
  console : list LogEntry;
  screen : list ScreenItem;
  (* bookkeeping of the embedding *)
  setup_pc : SetupPC;
  inflight : nat;                       (* detection calls awaited and not yet settled *)
  formatted : list value                (* arguments formatDataForTD was called with *)
}.

Definition set_detections (v : list value) (w : World) : World :=
  {| detections := v; socket := socket w; lastSentData := lastSentData w;
     reconnectInterval := reconnectInterval w; sockets := sockets w; wire := wire w;
     timers := timers w; next_handle := next_handle w; clock := clock w;
     console := console w; screen := screen w; setup_pc := setup_pc w;
     inflight := inflight w; formatted := formatted w |}.

Definition set_socket (v : option nat) (w : World) : World :=
  {| detections := detections w; socket := v; lastSentData := lastSentData w;
     reconnectInterval := reconnectInterval w; sockets := sockets w; wire := wire w;
     timers := timers w; next_handle := next_handle w; clock := clock w;
     console := console w; screen := screen w; setup_pc := setup_pc w;
     inflight := inflight w; formatted := formatted w |}.

Definition set_lastSentData (v : strval) (w : World) : World :=
  {| detections := detections w; socket := socket w; lastSentData := v;
     reconnectInterval := reconnectInterval w; sockets := sockets w; wire := wire w;
     timers := timers w; next_handle := next_handle w; clock := clock w;
     console := console w; screen := screen w; setup_pc := setup_pc w;
     inflight := inflight w; formatted := formatted w |}.

Definition set_reconnectInterval (v : option positive) (w : World) : World :=
  {| detections := detections w; socket := socket w; lastSentData := lastSentData w;
     reconnectInterval := v; sockets := sockets w; wire := wire w;
     timers := timers w; next_handle := next_handle w; clock := clock w;
     console := console w; screen := screen w; setup_pc := setup_pc w;
     inflight := inflight w; formatted := formatted w |}.

Definition set_sockets (v : list WebSocket) (w : World) : World :=
  {| detections := detections w; socket := socket w; lastSentData := lastSentData w;
     reconnectInterval := reconnectInterval w; sockets := v; wire := wire w;
     timers := timers w; next_handle := next_handle w; clock := clock w;
     console := console w; screen := screen w; setup_pc := setup_pc w;
     inflight := inflight w; formatted := formatted w |}.

Definition set_wire (v : list (nat * string)) (w : World) : World :=
  {| detections := detections w; socket := socket w; lastSentData := lastSentData w;
     reconnectInterval := reconnectInterval w; sockets := sockets w; wire := v;
     timers := timers w; next_handle := next_handle w; clock := clock w;
     console := console w; screen := screen w; setup_pc := setup_pc w;
     inflight := inflight w; formatted := formatted w |}.

Definition set_timers (v : list Timer) (n : positive) (w : World) : World :=
  {| detections := detections w; socket := socket w; lastSentData := lastSentData w;
     reconnectInterval := reconnectInterval w; sockets := sockets w; wire := wire w;
     timers := v; next_handle := n; clock := clock w;
     console := console w; screen := screen w; setup_pc := setup_pc w;
     inflight := inflight w; formatted := formatted w |}.

Definition set_clock (v : number) (w : World) : World :=
  {| detections := detections w; socket := socket w; lastSentData := lastSentData w;
     reconnectInterval := reconnectInterval w; sockets := sockets w; wire := wire w;
     timers := timers w; next_handle := next_handle w; clock := v;
     console := console w; screen := screen w; setup_pc := setup_pc w;
     inflight := inflight w; formatted := formatted w |}.

Definition set_console (v : list LogEntry) (w : World) : World :=
  {| detections := detections w; socket := socket w; lastSentData := lastSentData w;
     reconnectInterval := reconnectInterval w; sockets := sockets w; wire := wire w;
     timers := timers w; next_handle := next_handle w; clock := clock w;
     console := v; screen := screen w; setup_pc := setup_pc w;
     inflight := inflight w; formatted := formatted w |}.

Definition set_screen (v : list ScreenItem) (w : World) : World :=
  {| detections := detections w; socket := socket w; lastSentData := lastSentData w;
     reconnectInterval := reconnectInterval w; sockets := sockets w; wire := wire w;
     timers := timers w; next_handle := next_handle w; clock := clock w;
     console := console w; screen := v; setup_pc := setup_pc w;
     inflight := inflight w; formatted := formatted w |}.

Definition set_setup_pc (v : SetupPC) (w : World) : World :=
  {| detections := detections w; socket := socket w; lastSentData := lastSentData w;
     reconnectInterval := reconnectInterval w; sockets := sockets w; wire := wire w;
     timers := timers w; next_handle := next_handle w; clock := clock w;
     console := console w; screen := screen w; setup_pc := v;
     inflight := inflight w; formatted := formatted w |}.

Definition set_inflight (v : nat) (w : World) : World :=
  {| detections := detections w; socket := socket w; lastSentData := lastSentData w;
     reconnectInterval := reconnectInterval w; sockets := sockets w; wire := wire w;
     timers := timers w; next_handle := next_handle w; clock := clock w;
     console := console w; screen := screen w; setup_pc := setup_pc w;
     inflight := v; formatted := formatted w |}.

Definition set_formatted (v : list value) (w : World) : World :=
  {| detections := detections w; socket := socket w; lastSentData := lastSentData w;
     reconnectInterval := reconnectInterval w; sockets := sockets w; wire := wire w;
     timers := timers w; next_handle := next_handle w; clock := clock w;
     console := console w; screen := screen w; setup_pc := setup_pc w;
     inflight := inflight w; formatted := v |}.

(** The world when the page has loaded the script (lines 3-8). *)
Definition initial (now : number) : World :=
  {| detections := []; socket := None; lastSentData := SNull;
     reconnectInterval := None; sockets := []; wire := [];
     timers := []; next_handle := 1%positive; clock := now;
     console := []; screen := []; setup_pc := NotStarted;
     inflight := 0; formatted := [] |}.

(* ----------------------------------------------------------------- *)
(** *** The monad of the sketch's functions *)

Definition M (A : Type) : Type := World -> completion A * World.

Definition ret {A} (a : A) : M A := fun w => (Normal a, w).

Definition bind {A B} (m : M A) (k : A -> M B) : M B :=
  fun w => match m w with
           | (Normal a, w') => k a w'
           | (Throw e, w') => (Throw e, w')
           end.

Definition lift {A} (c : completion A) : M A := fun w => (c, w).
Definition gets {A} (f : World -> A) : M A := fun w => (Normal (f w), w).
Definition modify (f : World -> World) : M unit := fun w => (Normal tt, f w).

(** [try { body } catch (error) { handler }] *)
Definition try_catch {A} (body : M A) (handler : Error -> M A) : M A :=
  fun w => match body w with
           | (Normal a, w') => (Normal a, w')
           | (Throw e, w') => handler e w'
           end.

End Sketch.

Arguments Normal {A} a.
Arguments Throw {A} e.

Notation "x <- m ;; k" := (bind m (fun x => k))
  (at level 61, m at next level, right associativity).
Notation "m ;; k" := (bind m (fun _ => k))
  (at level 61, right associativity).

(* ================================================================= *)
(** ** Browser primitives *)

Section Program.
Context {NM : NumberModel}.

Definition console_log (e : LogEntry) : M unit :=
  modify (fun w => set_console (console w ++ [e])%list w).

Definition paint (i : ScreenItem) : M unit :=
  modify (fun w => set_screen (screen w ++ [i])%list w).

Definition Date_now : M number := gets clock.

(** [socket.readyState] of the WebSocket [i]. *)
Definition readyState_of (i : nat) (w : World) : ReadyState :=
  match nth_error (sockets w) i with
  | Some s => readyState s
  | None => CLOSED
  end.

Fixpoint set_readyState (i : nat) (r : ReadyState) (l : list WebSocket) : list WebSocket :=
  match l, i with
  | [], _ => []
  | s :: rest, O => {| url := url s; readyState := r |} :: rest
  | s :: rest, S j => s :: set_readyState j r rest
  end.

(** [new WebSocket(u)]: a fresh object in state CONNECTING. *)
Definition WebSocket_new (u : string) : M nat :=
  i <- gets (fun w => List.length (sockets w)) ;;
  modify (fun w => set_sockets (sockets w ++ [{| url := u; readyState := CONNECTING |}])%list w) ;;
  ret i.

(** [ws.close()]: starts the closing handshake of a connecting or open
    socket; the close event comes later.  Nothing happens on a socket that
    is closing or closed. *)
Definition WebSocket_close (i : nat) : M unit :=
  r <- gets (readyState_of i) ;;
  match r with
  | CONNECTING | OPEN => modify (fun w => set_sockets (set_readyState i CLOSING (sockets w)) w)
  | CLOSING | CLOSED => ret tt
  end.

(** [ws.send(data)]: throws while connecting, transmits when open, and
    silently drops the data otherwise. *)
Definition WebSocket_send (i : nat) (data : strval) : M unit :=
  r <- gets (readyState_of i) ;;
  match r with
  | CONNECTING => lift (Throw InvalidStateError)
  | OPEN => modify (fun w => set_wire (wire w ++ [(i, ToString_strval data)])%list w)
  | CLOSING | CLOSED => ret tt
  end.

Definition setInterval (cb : Callback) (ms : Z) : M positive :=
  h <- gets next_handle ;;
  modify (fun w => set_timers (timers w ++ [{| handle := h; callback := cb; delay := ms |}])%list
                              (Pos.succ h) w) ;;
  ret h.

(** [clearInterval(id)]: cancels the timer with that handle, if there is
    one; [clearInterval(undefined)] does nothing. *)
Definition clearInterval (id : option positive) : M unit :=
  match id with
  | None => ret tt
  | Some h =>
      modify (fun w => set_timers (filter (fun t => negb (Pos.eqb (handle t) h)) (timers w))
                                  (next_handle w) w)
  end.

(* ================================================================= *)
(** ** sketch.js *)

(** The handlers [setupWebSocket] installs on every socket it creates
    (lines 20-36).  They only touch globals, so they are the same for
    every socket. *)
Definition onopen : M unit :=
  console_log LogConnected ;;
  id <- gets reconnectInterval ;;
  clearInterval id.

Definition onerror : M unit :=
  console_log LogSocketError.

Definition onclose (code : Z) (reason : string) : M unit :=
  console_log (LogClosed code reason) ;;
  id <- gets reconnectInterval ;;
  match id with
  | None =>                                  (* !reconnectInterval *)
      console_log LogWillReconnect ;;
      h <- setInterval Reconnect 3000 ;;
      modify (set_reconnectInterval (Some h))
  | Some _ => ret tt
  end.

(** Lines 11-37. *)
Definition setupWebSocket : M unit :=
  s <- gets socket ;;
  match s with
  | Some i => WebSocket_close i
  | None => ret tt
  end ;;
  console_log LogAttempt ;;
  i <- WebSocket_new "ws://localhost:8080" ;;
  modify (set_socket (Some i)).

(** Lines 40-58.  The object literal evaluates its properties in order;
    each [detection.alignedRect.box.k] walks the path again. *)
Definition formatDataForTD (detection : value) : M value :=
  modify (fun w => set_formatted (formatted w ++ [detection])%list w) ;;
  now <- Date_now ;;
  gender <- lift (Get detection "gender") ;;
  genderProbability <- lift (Get detection "genderProbability") ;;
  age <- lift (Get detection "age") ;;
  r <- lift (Get detection "alignedRect") ;; b <- lift (Get r "box") ;;
  x <- lift (Get b "x") ;;
  r <- lift (Get detection "alignedRect") ;; b <- lift (Get r "box") ;;
  y <- lift (Get b "y") ;;
  r <- lift (Get detection "alignedRect") ;; b <- lift (Get r "box") ;;
  width <- lift (Get b "width") ;;
  r <- lift (Get detection "alignedRect") ;; b <- lift (Get r "box") ;;
  height <- lift (Get b "height") ;;
  expressions <- lift (Get detection "expressions") ;;
  ret (VObj [("timestamp", VNum now);
             ("face", VObj [("gender", gender);
                            ("genderConfidence", genderProbability);
                            ("age", age);
                            ("position", VObj [("x", x); ("y", y);
                                               ("width", width); ("height", height)]);
                            ("expressions", expressions)])]).

(** Lines 61-77. *)
Definition sendData (data : value) : M bool :=
  s <- gets socket ;;
  match s with
  | None => ret false                                   (* !socket *)
  | Some i =>
      r <- gets (readyState_of i) ;;
      if negb (ReadyState_eqb r OPEN) then ret false
      else
        let jsonData := JSON_stringify data in
        last <- gets lastSentData ;;
        if strict_neq jsonData last then
          WebSocket_send i jsonData ;;
          modify (set_lastSentData jsonData) ;;
          ret true
        else ret false
  end.

(** The two halves of the detection loop (lines 116-138): the part of a
    tick up to the [await], and the part that runs once the detection call
    has settled.  [found] is the outcome of the awaited Face-API.js chain,
    [resize] stands for [faceapi.resizeResults(_, displaySize)]. *)
Definition detect_begin (video_ready : bool) : M unit :=
  if video_ready                                 (* video.elt.readyState === 4 *)
  then modify (fun w => set_inflight (S (inflight w)) w)
  else ret tt.

Definition detect_resume (found : completion (list value))
                         (resize : list value -> completion (list value)) : M unit :=
  modify (fun w => set_inflight (pred (inflight w)) w) ;;
  try_catch
    (ds <- lift found ;;
     modify (set_detections ds) ;;
     ds <- gets detections ;;
     ds <- lift (resize ds) ;;
     modify (set_detections ds))
    (fun error => console_log (LogDetectionError error)).

(** [setup] (lines 79-139), cut at its [await]: [setup_begin] runs to the
    model loading, [setup_resume] continues when the loading has settled.
    The p5 video and canvas handles are not part of the world. *)
Definition setup_begin (faceapi_defined : bool) : M unit :=
  console_log LogSettingUp ;;
  if negb faceapi_defined then
    console_log LogFaceApiMissing ;;
    modify (set_setup_pc Finished)
  else modify (set_setup_pc LoadingModels).

Definition setup_resume (loaded : completion unit) : M unit :=
  match loaded with
  | Throw error =>
      console_log (LogModelsError error) ;;
      modify (set_setup_pc Finished)
  | Normal _ =>
      console_log LogModelsLoaded ;;
      setupWebSocket ;;
      _ <- setInterval DetectFaces 100 ;;
      modify (set_setup_pc Finished)
  end.

(** Lines 159-162: [detection.gender || "unknown"] and
    [detection.genderProbability ? (detection.genderProbability * 100).toFixed(1) : 0]. *)
Definition display_gender (g : value) : value :=
  if ToBoolean g then g else VStr "unknown".

Definition display_confidence (p : value) : value :=
  if ToBoolean p then VStr (Number_percent (ToNumber p)) else VNum Number_zero.

(** Line 169: the text drawn next to the face. *)
Definition face_label (index : nat) (gender confidence : value) : string :=
  "Face " ++ nat_to_string (index + 1) ++ ": " ++ ToString gender
    ++ " (" ++ ToString confidence ++ "%)".

(** The callback of [detections.forEach] (lines 147-176). *)
Definition draw_detection (index : nat) (detection : value) : M unit :=
  if negb (ToBoolean detection) then ret tt
  else
    r <- lift (Get detection "alignedRect") ;;
    if negb (ToBoolean r) then ret tt
    else
      r <- lift (Get detection "alignedRect") ;;
      box <- lift (Get r "box") ;;
      x <- lift (Get box "x") ;;
      y <- lift (Get box "y") ;;
      width <- lift (Get box "width") ;;
      height <- lift (Get box "height") ;;
      paint (FaceBox x y width height) ;;
      g <- lift (Get detection "gender") ;;
      let gender := display_gender g in
      p <- lift (Get detection "genderProbability") ;;
      let confidence := display_confidence p in
      paint (Text (face_label index gender confidence)) ;;
      faceData <- formatDataForTD detection ;;
      sent <- sendData faceData ;;
      if sent
      then console_log (LogSent ("📤 Sent face " ++ nat_to_string (index + 1) ++ " data: "
                                   ++ ToString gender
                                   ++ " (" ++ ToString confidence ++ "%)"))
      else ret tt.

(** [array.forEach(callback)]: in index order; an exception thrown by the
    callback ends the loop. *)
Fixpoint forEach (callback : nat -> value -> M unit) (index : nat) (array : list value)
  : M unit :=
  match array with
  | [] => ret tt
  | element :: rest => callback index element ;; forEach callback (S index) rest
  end.

Definition statusMsg (w : World) : string :=
  "WebSocket: " ++
  match socket w with
  | None => "Not initialized"
  | Some i =>
      match readyState_of i w with
      | CONNECTING => "Connecting..."
      | OPEN => "Connected ✓"
      | CLOSING => "Closing..."
      | CLOSED => "Disconnected ✗"
      end
  end.

(** Lines 141-208. *)
Definition draw : M unit :=
  paint VideoFrame ;;
  ds <- gets detections ;;
  (if (0 <? List.length ds)%nat then forEach draw_detection 0 ds else ret tt) ;;
  msg <- gets statusMsg ;;
  paint (Text msg).

(* ================================================================= *)
(** ** Events: what the browser and p5 call back *)

Inductive Event : Type :=
| EvSetup (faceapi_defined : bool)             (* p5 calls setup() *)
| EvModels (loaded : completion unit)          (* the model loading settled *)
| EvSocketOpen (i : nat)                       (* open event of socket i *)
| EvSocketError (i : nat)                      (* error event of socket i *)
| EvSocketClose (i : nat) (code : Z) (reason : string)
| EvTimer (h : positive) (video_ready : bool)  (* interval timer h fires *)
| EvDetected (found : completion (list value))
             (resize : list value -> completion (list value))
| EvDraw                                       (* p5 calls draw() *)
| EvClock (now : number).                      (* time passes *)

Definition find_timer (h : positive) (w : World) : option Timer :=
  find (fun t => Pos.eqb (handle t) h) (timers w).

Definition enabled (ev : Event) (w : World) : bool :=
  match ev with
  | EvSetup _ => match setup_pc w with NotStarted => true | _ => false end
  | EvModels _ => match setup_pc w with LoadingModels => true | _ => false end
  | EvSocketOpen i =>
      match nth_error (sockets w) i with
      | Some s => ReadyState_eqb (readyState s) CONNECTING
      | None => false
      end
  | EvSocketError i | EvSocketClose i _ _ =>
      match nth_error (sockets w) i with
      | Some s => negb (ReadyState_eqb (readyState s) CLOSED)
      | None => false
      end
  | EvTimer h _ => match find_timer h w with Some _ => true | None => false end
  | EvDetected _ _ => (0 <? inflight w)%nat
  | EvDraw => match setup_pc w with NotStarted => false | _ => true end
  | EvClock _ => true
  end.

Definition reaction (ev : Event) : M unit :=
  match ev with
  | EvSetup faceapi_defined => setup_begin faceapi_defined
  | EvModels loaded => setup_resume loaded
  | EvSocketOpen i =>
      modify (fun w => set_sockets (set_readyState i OPEN (sockets w)) w) ;;
      onopen
  | EvSocketError _ => onerror
  | EvSocketClose i code reason =>
      modify (fun w => set_sockets (set_readyState i CLOSED (sockets w)) w) ;;
      onclose code reason
  | EvTimer h video_ready =>
      t <- gets (find_timer h) ;;
      match option_map callback t with
      | Some Reconnect => setupWebSocket
      | Some DetectFaces => detect_begin video_ready
      | None => ret tt
      end
  | EvDetected found resize => detect_resume found resize
  | EvDraw => draw
  | EvClock now => modify (set_clock now)
  end.

(** The world after the event; an exception that escapes a callback is
    reported by the browser and the page goes on. *)
Definition handle_event (ev : Event) (w : World) : World := snd (reaction ev w).

Definition run (evs : list Event) (w : World) : World :=
  fold_left (fun w ev => handle_event ev w) evs w.

Inductive reachable : World -> Prop :=
| reach_initial now : reachable (initial now)
| reach_event w ev : reachable w -> enabled ev w = true -> reachable (handle_event ev w).

(** The state of the connection, as [draw] displays it. *)
Inductive ConnectionState : Type :=
| Uninitialized
| Connection (r : ReadyState).

Definition connection_state (w : World) : ConnectionState :=
  match socket w with
  | None => Uninitialized
  | Some i => Connection (readyState_of i w)
  end.

(** The retry timers that are pending. *)
Definition pending_retries (w : World) : list Timer :=
  filter (fun t => match callback t with Reconnect => true | DetectFaces => false end)
         (timers w).

End Program.
(* ================================================================= *)
(** ** Observations used in the statements *)

Section Observations.
Context {NM : NumberModel}.

Definition is_open (w : World) : bool :=
  match connection_state w with
  | Connection OPEN => true
  | _ => false
  end.

(** [sendData] accepts [data] when the socket is open and the JSON text
    differs from the last one sent. *)
Definition accepts (data : value) (w : World) : bool :=
  is_open w && strict_neq (JSON_stringify data) (lastSentData w).

(** The texts transmitted so far, oldest first. *)
Definition frames (w : World) : list string := map snd (wire w).

(** Every event of the list can happen when its turn comes. *)
Fixpoint feasible (evs : list Event) (w : World) : bool :=
  match evs with
  | [] => true
  | ev :: rest => enabled ev w && feasible rest (handle_event ev w)
  end.

Definition is_draw (ev : Event) : bool :=
  match ev with
  | EvDraw => true
  | _ => false
  end.

(** No draw pass of the list runs while the connection is open: whatever
    else happens, [sendData] is not called on an open socket. *)
Fixpoint silent (evs : list Event) (w : World) : bool :=
  match evs with
  | [] => true
  | ev :: rest =>
      (negb (is_draw ev) || negb (is_open w)) && silent rest (handle_event ev w)
  end.

(** The record has a bounding box: [detection.alignedRect.box] is there
    and is neither [undefined] nor [null]. *)
Definition has_box (detection : value) : bool :=
  match Get detection "alignedRect" with
  | Normal r =>
      match Get r "box" with
      | Normal VUndefined | Normal VNull => false
      | Normal _ => true
      | Throw _ => false
      end
  | Throw _ => false
  end.

(** [m] takes every world to one related to it by [R]. *)
Definition keeps (R : World -> World -> Prop) {A : Type} (m : M A) : Prop :=
  forall w, R w (snd (m w)).

(** The connection side of the world is the same in [w] and [w']. *)
Definition same_connection (w w' : World) : Prop :=
  socket w' = socket w /\ sockets w' = sockets w /\ timers w' = timers w /\
  next_handle w' = next_handle w /\ reconnectInterval w' = reconnectInterval w /\
  setup_pc w' = setup_pc w.

(** Nothing was transmitted and the snapshot is the same. *)
Definition same_snapshot (w w' : World) : Prop :=
  lastSentData w' = lastSentData w /\ wire w' = wire w.

(** The connection side is untouched and, unless the connection is open,
    so are the wire and the snapshot. *)
Definition quiet (w w' : World) : Prop :=
  same_connection w w' /\ (is_open w = false -> same_snapshot w w').

(** [v.k] where the access is known not to throw. *)
Definition prop (v : value) (k : string) : value :=
  match Get v k with
  | Normal x => x
  | Throw _ => VUndefined
  end.

(** An invariant [P] that holds in [w] holds in [w']. *)
Definition preserves (P : World -> Prop) (w w' : World) : Prop := P w -> P w'.

(** The retry timers agree with the handle in [reconnectInterval]: none is
    pending while the handle is [undefined], and otherwise the only one
    that can be pending is the timer with that handle, which reconnects
    every 3000 ms. *)
Definition retry_inv (w : World) : Prop :=
  match reconnectInterval w with
  | None => pending_retries w = []
  | Some h =>
      pending_retries w = [] \/
      pending_retries w = [{| handle := h; callback := Reconnect; delay := 3000 |}]
  end.

(** The connection is closed, no retry is pending, and the handle of a
    cancelled timer is still in [reconnectInterval]; [fs] are the frames
    transmitted so far. *)
Definition stranded (fs : list string) (w : World) : Prop :=
  setup_pc w = Finished /\ connection_state w = Connection CLOSED /\
  pending_retries w = [] /\ reconnectInterval w <> None /\ frames w = fs.

(** A session in which the connection is lost once and re-established by
    the retry timer: after it the connection is open, the retry timer has
    been cancelled, and [reconnectInterval] still holds its handle. *)
Definition reconnected_once : list Event :=
  [EvSetup true; EvModels (Normal tt);
   EvSocketOpen 0; EvSocketClose 0 1006 EmptyString;
   EvTimer 2 false; EvSocketOpen 1].

(** The same session, followed by the loss of the second connection. *)
Definition lost_twice : list Event :=
  (reconnected_once ++ [EvSocketClose 1 1006 EmptyString])%list.

(** [n] close events in a row on socket [i]. *)
Definition close_events (n i : nat) (code : Z) (reason : string) (w : World) : World :=
  Nat.iter n (handle_event (EvSocketClose i code reason)) w.

(** [m] returns in every world: no exception. *)
Definition succeeds {A : Type} (m : M A) : Prop :=
  forall w, exists a, fst (m w) = Normal a.

(** The WireMessage shape of the specification:
    { timestamp, face: { gender, genderConfidence, age,
                         position: {x, y, width, height}, expressions } }. *)
Definition WireMessage (timestamp : number)
    (gender genderConfidence age x y width height expressions : value) : value :=
  VObj [("timestamp", VNum timestamp);
        ("face", VObj [("gender", gender);
                       ("genderConfidence", genderConfidence);
                       ("age", age);
                       ("position", VObj [("x", x); ("y", y);
                                          ("width", width); ("height", height)]);
                       ("expressions", expressions)])].

(** [JSON.stringify] of the result of a call, when it returned. *)
Definition serialized (c : completion value) : completion strval :=
  match c with
  | Normal v => Normal (JSON_stringify v)
  | Throw e => Throw e
  end.

(* ----------------------------------------------------------------- *)
(** *** Further observations *)

(** The message [formatDataForTD] builds from a record at a clock reading. *)
Definition message_of (now : number) (d : value) : value :=
  WireMessage now (prop d "gender") (prop d "genderProbability") (prop d "age")
    (prop (prop (prop d "alignedRect") "box") "x")
    (prop (prop (prop d "alignedRect") "box") "y")
    (prop (prop (prop d "alignedRect") "box") "width")
    (prop (prop (prop d "alignedRect") "box") "height")
    (prop d "expressions").

(** Line 174: the console message for a record that was sent. *)
Definition sent_label (index : nat) (gender confidence : value) : string :=
  "📤 Sent face " ++ nat_to_string (index + 1) ++ " data: " ++ ToString gender
    ++ " (" ++ ToString confidence ++ "%)".

(** [setup] has given up (Face-API.js missing, or the models did not
    load): no socket, no timer, nothing detected, nothing sent. *)
Definition dormant (w : World) : Prop :=
  setup_pc w = Finished /\ socket w = None /\ sockets w = [] /\ timers w = [] /\
  inflight w = 0 /\ detections w = [] /\ wire w = [] /\ lastSentData w = SNull /\
  reconnectInterval w = None.

(** The global [socket] is the WebSocket created last, every WebSocket
    points to the fixed endpoint, and every WebSocket other than the
    current one is closing or closed. *)
Definition one_live_socket (w : World) : Prop :=
  match socket w with
  | None => sockets w = []
  | Some i => S i = List.length (sockets w)
  end /\
  forall j s, nth_error (sockets w) j = Some s ->
    url s = "ws://localhost:8080" /\
    (socket w <> Some j -> readyState s = CLOSING \/ readyState s = CLOSED).

(** The retry timer with handle [h] is pending. *)
Definition retrying (h : positive) (w : World) : Prop :=
  reconnectInterval w = Some h /\
  pending_retries w = [{| handle := h; callback := Reconnect; delay := 3000 |}].

Definition is_open_event (ev : Event) : bool :=
  match ev with
  | EvSocketOpen _ => true
  | _ => false
  end.

(** The event is part of a running sketch: [setup] is over. *)
Definition is_setup_event (ev : Event) : bool :=
  match ev with
  | EvSetup _ | EvModels _ => true
  | _ => false
  end.

(** The timers of the detection loop that are pending. *)
Definition detect_timers (w : World) : list Timer :=
  filter (fun t => match callback t with DetectFaces => true | Reconnect => false end)
         (timers w).

(** The timers, their handles and [reconnectInterval] are the same. *)
Definition same_timers (w w' : World) : Prop :=
  timers w' = timers w /\ next_handle w' = next_handle w /\
  reconnectInterval w' = reconnectInterval w /\ setup_pc w' = setup_pc w.

(** What holds of the timers in a running sketch: handles are handed out
    once; a handle in [reconnectInterval] is not the handle of the
    detection loop; before [setup] has opened the socket nothing is
    scheduled, and from then on the detection loop is. *)
Definition timers_inv (w : World) : Prop :=
  (forall t, In t (timers w) -> (handle t < next_handle w)%positive) /\
  NoDup (map handle (timers w)) /\
  (forall h, reconnectInterval w = Some h ->
     (h < next_handle w)%positive /\
     forall t, In t (timers w) -> handle t = h -> callback t = Reconnect) /\
  (socket w = None ->
     timers w = [] /\ reconnectInterval w = None /\ sockets w = []) /\
  (socket w <> None ->
     setup_pc w = Finished /\
     exists d, detect_timers w = [{| handle := d; callback := DetectFaces; delay := 100 |}]).

(** What a draw pass reads is the same in [w] and [w']. *)
Definition same_inputs (w w' : World) : Prop :=
  detections w' = detections w /\ clock w' = clock w /\ inflight w' = inflight w.

(** The entry passes the test of line 148 and yet has no bounding box. *)
Definition boxless (d : value) : Prop :=
  ToBoolean d = true /\
  (exists r, Get d "alignedRect" = Normal r /\ ToBoolean r = true) /\
  has_box d = false.

(** The world after one run of the [forEach] of [draw] over [ds]. *)
Definition pass (ds : list value) (w : World) : World :=
  snd (forEach draw_detection 0 ds w).

(** The JSON text of the message of record [d] at clock reading [now]. *)
Definition frame_of (now : number) (d : value) : string :=
  ToString_strval (JSON_stringify (message_of now d)).

(** No two frames next to each other are equal. *)
Definition no_stutter (l : list string) : Prop :=
  forall pre a b post, l = (pre ++ a :: b :: post)%list -> a <> b.

(** What [lastSentData] should hold given the frames on the wire: null
    when there is none, the last frame otherwise. *)
Definition last_frame (l : list string) : strval :=
  match l with
  | [] => SNull
  | _ :: _ => SString (last l EmptyString)
  end.

Definition wire_inv (w : World) : Prop :=
  lastSentData w = last_frame (frames w) /\ no_stutter (frames w).

(** [n] ticks of the interval timer [d] in a row, the video being ready. *)
Definition ticks (n : nat) (d : positive) (w : World) : World :=
  Nat.iter n (handle_event (EvTimer d true)) w.

End Observations.

(** A small implementation of the number interface for the examples,
    whose numbers are small integers: the integers and NaN. *)
Definition IntOrNaN : NumberModel := {|
  number := option Z;
  Number_zero := Some 0%Z;
  Number_one := Some 1%Z;
  Number_NaN := None;
  Number_ofString := fun s =>
    match s with
    | EmptyString => Some 0%Z
    | _ => option_map Z.of_int (NilZero.int_of_string s)
    end;
  Number_isFinite := fun n => match n with Some _ => true | None => false end;
  Number_toString := fun n =>
    match n with
    | Some z => NilZero.string_of_int (Z.to_int z)
    | None => "NaN"
    end;
  Number_toBoolean := fun n =>
    match n with
    | Some z => negb (z =? 0)%Z
    | None => false
    end;
  Number_percent := fun n =>
    match n with
    | Some z => NilZero.string_of_int (Z.to_int (z * 100)) ++ ".0"
    | None => "NaN"
    end
|}.

(** Example data: a detection record as Face-API.js yields it, the same
    record one year older, a record without gender data, and the worlds of
    a short session. *)
Section Examples.
#[local] Existing Instance IntOrNaN.

Definition example_box : value :=
  VObj [("x", VNum (Some 10%Z)); ("y", VNum (Some 10%Z));
        ("width", VNum (Some 50%Z)); ("height", VNum (Some 50%Z))].

Definition example_record : value :=
  VObj [("alignedRect", VObj [("box", example_box)]);
        ("expressions", VObj [("happy", VNum (Some 1%Z))]);
        ("gender", VStr "female");
        ("genderProbability", VNum (Some 1%Z));
        ("age", VNum (Some 30%Z))].

Definition older_record : value :=
  VObj [("alignedRect", VObj [("box", example_box)]);
        ("expressions", VObj [("happy", VNum (Some 1%Z))]);
        ("gender", VStr "female");
        ("genderProbability", VNum (Some 1%Z));
        ("age", VNum (Some 31%Z))].

Definition record_without_gender : value :=
  VObj [("alignedRect", VObj [("box", example_box)]);
        ("expressions", VObj [("happy", VNum (Some 1%Z))]);
        ("age", VNum (Some 30%Z))].

Definition example_message : value :=
  WireMessage (Some 1000%Z) (VStr "female") (VNum (Some 1%Z)) (VNum (Some 30%Z))
    (VNum (Some 10%Z)) (VNum (Some 10%Z)) (VNum (Some 50%Z)) (VNum (Some 50%Z))
    (VObj [("happy", VNum (Some 1%Z))]).

Definition older_message : value :=
  WireMessage (Some 1000%Z) (VStr "female") (VNum (Some 1%Z)) (VNum (Some 31%Z))
    (VNum (Some 10%Z)) (VNum (Some 10%Z)) (VNum (Some 50%Z)) (VNum (Some 50%Z))
    (VObj [("happy", VNum (Some 1%Z))]).

(** The message of [record_without_gender] with the two gender properties
    left out altogether. *)
Definition message_without_gender : value :=
  VObj [("timestamp", VNum (Some 1000%Z));
        ("face", VObj [("age", VNum (Some 30%Z));
                       ("position", example_box);
                       ("expressions", VObj [("happy", VNum (Some 1%Z))])])].

(** The script has been read; [setup] has not run yet. *)
Definition page_loaded : World := initial (Some 1000%Z).

(** The page has loaded the models and is connecting. *)
Definition booted : World :=
  run [EvSetup true; EvModels (Normal tt)] page_loaded.

(** The session in which the connection is lost a second time, and what
    goes on afterwards. *)
Definition lost_again : World := run lost_twice (initial (Some 1000%Z)).

Definition afterwards : list Event :=
  [EvDraw; EvClock (Some 4000%Z); EvTimer 1 true; EvDraw].

(** The first connection is open and a detection tick has found the
    example face. *)
Definition connected : World :=
  run [EvSocketOpen 0; EvTimer 1 true; EvDetected (Normal [example_record]) Normal]
      booted.

(** The first connection was lost; the retry timer, handle 2, is pending. *)
Definition disconnected : World :=
  handle_event (EvSocketClose 0 1006%Z EmptyString) connected.

(** Frames are drawn during the outage; the retry timer fires and the new
    socket opens. *)
Definition retry_succeeds : list Event :=
  [EvDraw; EvTimer 2 false; EvDraw; EvSocketOpen 1].

(** A record whose alignedRect has no box. *)
Definition boxless_record : value :=
  VObj [("alignedRect", VObj [("score", VNum (Some 1%Z))]);
        ("age", VNum (Some 30%Z))].

(** What can follow the first loss while the server stays away: a draw
    pass, the retry, the failure of the new socket, another draw pass. *)
Definition outage : list Event :=
  [EvDraw; EvTimer 2 false; EvSocketClose 1 1006%Z EmptyString; EvDraw].

(** The connection is lost and found again, with draw passes in between. *)
Definition lost_and_found : list Event :=
  [EvSocketClose 0 1006%Z EmptyString; EvDraw; EvTimer 2 false; EvDraw; EvSocketOpen 1].

(** Face-API.js is missing: what the page still does. *)
Definition without_faceapi : list Event :=
  [EvDraw; EvClock (Some 2000%Z); EvDraw].

(** The retry of [disconnected] has fired: socket 1 is connecting. *)
Definition reconnecting : World := handle_event (EvTimer 2 false) disconnected.

(** One draw pass on the open connection: the example face has been sent. *)
Definition drawn_once : World := handle_event EvDraw connected.

(** Two draw passes on the open connection, 100 ms apart. *)
Definition published : World :=
  run [EvDraw; EvClock (Some 1100%Z); EvDraw] connected.

End Examples.

(* ================================================================= *)
(** ** Properties *)

Ltac unfold_M :=
  unfold bind, ret, lift, gets, modify, try_catch in *.

Section Properties.
Context {NM : NumberModel}.

(* ----------------------------------------------------------------- *)
(** *** Which part of the world a function leaves alone *)

#[local] Instance same_connection_preorder : PreOrder same_connection.
Proof.
  split.
  - intros w. repeat split.
  - intros a b c (A1 & A2 & A3 & A4 & A5 & A6) (B1 & B2 & B3 & B4 & B5 & B6).
    repeat split; congruence.
Qed.

#[local] Instance same_snapshot_preorder : PreOrder same_snapshot.
Proof.
  split.
  - intros w. split; reflexivity.
  - intros a b c [A1 A2] [B1 B2]. split; congruence.
Qed.

Lemma same_connection_is_open (w w' : World) :
  same_connection w w' -> is_open w' = is_open w.
Proof.
  intros (A1 & A2 & _). unfold is_open, connection_state, readyState_of.
  now rewrite A1, A2.
Qed.

#[local] Instance quiet_preorder : PreOrder quiet.
Proof.
  split.
  - intros w. split; [reflexivity|]. intros _. reflexivity.
  - intros a b c [A1 A2] [B1 B2]. split; [etransitivity; eassumption|].
    intros Ho. etransitivity; [apply A2, Ho|].
    apply B2. now rewrite (same_connection_is_open A1).
Qed.

Section Keeps.
Variable R : World -> World -> Prop.
Context {R_preorder : PreOrder R}.

Lemma keeps_ret (A : Type) (a : A) : keeps R (ret a).
Proof. intros w. reflexivity. Qed.

Lemma keeps_lift (A : Type) (c : completion A) : keeps R (lift c).
Proof. intros w. reflexivity. Qed.

Lemma keeps_gets (A : Type) (f : World -> A) : keeps R (gets f).
Proof. intros w. reflexivity. Qed.

Lemma keeps_modify (f : World -> World) : (forall w, R w (f w)) -> keeps R (modify f).
Proof. intros H w. apply H. Qed.

Lemma keeps_bind (A B : Type) (m : M A) (k : A -> M B) :
  keeps R m -> (forall a, keeps R (k a)) -> keeps R (bind m k).
Proof.
  intros Hm Hk w. unfold bind. specialize (Hm w).
  destruct (m w) as [[a|e] w1]; simpl in *; [|assumption].
  etransitivity; [eassumption|apply Hk].
Qed.

Lemma keeps_try_catch (A : Type) (m : M A) (h : Error -> M A) :
  keeps R m -> (forall e, keeps R (h e)) -> keeps R (try_catch m h).
Proof.
  intros Hm Hh w. unfold try_catch. specialize (Hm w).
  destruct (m w) as [[a|e] w1]; simpl in *; [assumption|].
  etransitivity; [eassumption|apply Hh].
Qed.

Lemma keeps_forEach (f : nat -> value -> M unit) :
  (forall i d, keeps R (f i d)) -> forall l i, keeps R (forEach f i l).
Proof.
  intros Hf l. induction l as [|d rest IH]; intros i; simpl.
  - apply keeps_ret.
  - apply keeps_bind; [apply Hf|]. intros _. apply IH.
Qed.

End Keeps.

Ltac keeps_step :=
  match goal with
  | |- keeps _ (bind _ _) => apply keeps_bind; [exact _| |intros ?]
  | |- keeps _ (ret _) => apply keeps_ret; exact _
  | |- keeps _ (lift _) => apply keeps_lift; exact _
  | |- keeps _ (gets _) => apply keeps_gets; exact _
  | |- keeps _ (try_catch _ _) => apply keeps_try_catch; [exact _| |intros ?]
  | |- keeps _ (forEach _ _ _) => apply keeps_forEach; [exact _|intros ? ?]
  | |- keeps _ (modify _) => apply keeps_modify; intros ?
  | |- keeps _ (match ?x with _ => _ end) => destruct x
  | H : keeps ?R ?m |- keeps ?R ?m => exact H
  end.

Ltac frame_goal :=
  match goal with
  | |- same_connection _ _ => repeat split
  | |- same_snapshot _ _ => split; reflexivity
  | |- quiet _ _ => split; [repeat split | intros _; split; reflexivity]
  end.

Ltac keeps_auto := repeat keeps_step; try frame_goal.

Lemma formatDataForTD_quiet (d : value) : keeps quiet (formatDataForTD d).
Proof. unfold formatDataForTD, Date_now. keeps_auto. Qed.

Lemma strict_neq_false (a b : strval) : strict_neq a b = false <-> a = b.
Proof.
  destruct a, b; simpl; split; intros H; try congruence; try reflexivity.
  - apply negb_false_iff, String.eqb_eq in H. now subst.
  - inversion H; subst. now rewrite String.eqb_refl.
Qed.

Lemma strict_neq_true (a b : strval) : strict_neq a b = true <-> a <> b.
Proof.
  split.
  - intros H E. apply strict_neq_false in E. congruence.
  - intros H. destruct (strict_neq a b) eqn:E; [reflexivity|].
    apply strict_neq_false in E. contradiction.
Qed.

Lemma is_open_spec (w : World) :
  is_open w = true <-> connection_state w = Connection OPEN.
Proof.
  unfold is_open. destruct (connection_state w) as [|[]]; split; congruence.
Qed.

Lemma sendData_not_open (data : value) (w : World) :
  is_open w = false -> sendData data w = (Normal false, w).
Proof.
  unfold is_open, connection_state, sendData. unfold_M.
  destruct (socket w) as [i|]; [|reflexivity].
  destruct (readyState_of i w); simpl; congruence.
Qed.

Lemma sendData_open (data : value) (w : World) (i : nat) :
  socket w = Some i -> readyState_of i w = OPEN ->
  sendData data w =
    if strict_neq (JSON_stringify data) (lastSentData w)
    then (Normal true,
          set_lastSentData (JSON_stringify data)
            (set_wire (wire w ++ [(i, ToString_strval (JSON_stringify data))])%list w))
    else (Normal false, w).
Proof.
  intros Hs Hr. unfold sendData, WebSocket_send. unfold_M.
  rewrite Hs, Hr. simpl.
  destruct (strict_neq _ _); [|reflexivity].
  unfold readyState_of in *. simpl. now rewrite Hr.
Qed.

Lemma is_open_inv (w : World) :
  is_open w = true -> exists i, socket w = Some i /\ readyState_of i w = OPEN.
Proof.
  unfold is_open, connection_state. destruct (socket w) as [i|]; [|discriminate].
  destruct (readyState_of i w) eqn:E; try discriminate. eauto.
Qed.

(** What one call of [sendData] does, in terms of what can be observed. *)
Lemma sendData_effect (data : value) (w : World) :
  fst (sendData data w) = Normal (accepts data w) /\
  frames (snd (sendData data w)) =
    (if accepts data w
     then frames w ++ [ToString_strval (JSON_stringify data)]
     else frames w)%list /\
  lastSentData (snd (sendData data w)) =
    (if accepts data w then JSON_stringify data else lastSentData w) /\
  connection_state (snd (sendData data w)) = connection_state w.
Proof.
  unfold accepts. destruct (is_open w) eqn:Ho.
  - destruct (is_open_inv _ Ho) as (i & Hs & Hr).
    rewrite (sendData_open data w Hs Hr). simpl.
    destruct (strict_neq _ _); simpl; try tauto.
    repeat split. unfold frames. simpl. now rewrite map_app.
  - rewrite (sendData_not_open data w Ho). simpl. tauto.
Qed.

Lemma sendData_quiet (data : value) : keeps quiet (sendData data).
Proof.
  intros w. destruct (is_open w) eqn:Ho.
  - destruct (is_open_inv _ Ho) as (i & Hs & Hr).
    rewrite (sendData_open data w Hs Hr).
    destruct (strict_neq _ _); simpl.
    + split; [repeat split | congruence].
    + reflexivity.
  - rewrite (sendData_not_open data w Ho). reflexivity.
Qed.

Lemma draw_detection_quiet (index : nat) (d : value) : keeps quiet (draw_detection index d).
Proof.
  pose proof formatDataForTD_quiet. pose proof sendData_quiet.
  unfold draw_detection, paint, console_log. keeps_auto; auto.
Qed.

Lemma draw_quiet : keeps quiet draw.
Proof.
  pose proof draw_detection_quiet.
  unfold draw, paint. keeps_auto; auto.
Qed.

Lemma detect_begin_quiet (ready : bool) : keeps quiet (detect_begin ready).
Proof. unfold detect_begin. keeps_auto. Qed.

Lemma detect_resume_quiet (found : completion (list value))
      (resize : list value -> completion (list value)) :
  keeps quiet (detect_resume found resize).
Proof. unfold detect_resume, console_log. keeps_auto. Qed.

Lemma setupWebSocket_snapshot : keeps same_snapshot setupWebSocket.
Proof.
  unfold setupWebSocket, WebSocket_close, WebSocket_new, console_log. keeps_auto.
Qed.

Lemma onopen_snapshot : keeps same_snapshot onopen.
Proof. unfold onopen, clearInterval, console_log. keeps_auto. Qed.

Lemma onclose_snapshot (code : Z) (reason : string) :
  keeps same_snapshot (onclose code reason).
Proof. unfold onclose, setInterval, console_log. keeps_auto. Qed.

(** Only a [draw] pass can transmit or move the snapshot. *)
Lemma reaction_snapshot (ev : Event) :
  is_draw ev = false -> keeps same_snapshot (reaction ev).
Proof.
  pose proof setupWebSocket_snapshot. pose proof onopen_snapshot.
  pose proof onclose_snapshot.
  destruct ev; simpl; intros Hd; try discriminate;
    unfold setup_begin, setup_resume, onerror, detect_begin, detect_resume,
           setInterval, console_log;
    keeps_auto; auto.
Qed.

Lemma run_silent (evs : list Event) :
  forall w, silent evs w = true -> same_snapshot w (run evs w).
Proof.
  induction evs as [|ev rest IH]; simpl; intros w H.
  - reflexivity.
  - apply andb_prop in H as [H1 H2].
    etransitivity; [|apply IH, H2].
    apply orb_prop in H1 as [H1 | H1]; apply negb_true_iff in H1.
    + apply (reaction_snapshot ev H1 w).
    + unfold handle_event.
      destruct ev; try (apply reaction_snapshot; reflexivity).
      apply (draw_quiet w), H1.
Qed.

(* ----------------------------------------------------------------- *)
(** *** The retry timer *)

#[local] Instance preserves_preorder (P : World -> Prop) : PreOrder (preserves P).
Proof.
  split.
  - intros w H. exact H.
  - intros a b c H1 H2 H. apply H2, H1, H.
Qed.

Lemma same_connection_retry_inv (w w' : World) :
  same_connection w w' -> retry_inv w -> retry_inv w'.
Proof.
  intros (_ & _ & Ht & _ & Hr & _). unfold retry_inv, pending_retries.
  now rewrite Ht, Hr.
Qed.

Lemma quiet_preserves_retry_inv (A : Type) (m : M A) :
  keeps quiet m -> keeps (preserves retry_inv) m.
Proof.
  intros H w Hi. apply (same_connection_retry_inv (w := w)); [apply H|exact Hi].
Qed.

Lemma pending_retries_filter (f : Timer -> bool) (w : World) (n : positive) :
  pending_retries (set_timers (filter f (timers w)) n w) =
  filter f (pending_retries w).
Proof.
  unfold pending_retries. simpl.
  induction (timers w) as [|t l IH]; simpl; [reflexivity|].
  destruct (f t) eqn:Ef, (callback t) eqn:Ec; simpl; rewrite ?Ef, ?Ec, ?IH; reflexivity.
Qed.

Lemma setupWebSocket_retry_inv : keeps (preserves retry_inv) setupWebSocket.
Proof.
  unfold setupWebSocket, WebSocket_close, WebSocket_new, console_log.
  keeps_auto; unfold preserves, retry_inv, pending_retries; simpl; auto.
Qed.

Lemma onopen_retry_inv : keeps (preserves retry_inv) onopen.
Proof.
  intros w Hi. unfold onopen, clearInterval, console_log. unfold_M. simpl.
  unfold retry_inv in *. destruct (reconnectInterval w) as [h|] eqn:Er; simpl.
  - rewrite Er. left.
    rewrite (pending_retries_filter _ (set_console _ w)).
    change (pending_retries (set_console (console w ++ [LogConnected]) w))
      with (pending_retries w).
    destruct Hi as [-> | ->]; simpl; [reflexivity|].
    now rewrite Pos.eqb_refl.
  - rewrite Er. exact Hi.
Qed.

Lemma onclose_retry_inv (code : Z) (reason : string) :
  keeps (preserves retry_inv) (onclose code reason).
Proof.
  intros w Hi. unfold onclose, setInterval, console_log. unfold_M. simpl.
  unfold retry_inv in *. destruct (reconnectInterval w) as [h|] eqn:Er; simpl.
  - rewrite Er. exact Hi.
  - right. unfold pending_retries in *. simpl.
    rewrite filter_app, Hi. reflexivity.
Qed.

Lemma reaction_retry_inv (ev : Event) : keeps (preserves retry_inv) (reaction ev).
Proof.
  pose proof setupWebSocket_retry_inv. pose proof onopen_retry_inv.
  pose proof onclose_retry_inv.
  pose proof (quiet_preserves_retry_inv draw_quiet).
  pose proof (fun r => quiet_preserves_retry_inv (detect_begin_quiet r)).
  pose proof (fun f r => quiet_preserves_retry_inv (detect_resume_quiet f r)).
  destruct ev; simpl;
    unfold setup_begin, setup_resume, onerror, setInterval, console_log;
    keeps_auto; auto;
    unfold preserves, retry_inv, pending_retries; simpl; auto.
  intros Hi. rewrite filter_app. simpl. now rewrite app_nil_r.
Qed.

Lemma retry_inv_reachable (w : World) : reachable w -> retry_inv w.
Proof.
  induction 1 as [now | w ev Hr IH He].
  - reflexivity.
  - apply (reaction_retry_inv ev w IH).
Qed.

(** At most one retry timer is pending in any reachable world. *)
Lemma at_most_one_pending_retry (w : World) :
  reachable w -> (List.length (pending_retries w) <= 1)%nat.
Proof.
  intros H. apply retry_inv_reachable in H. unfold retry_inv in H.
  destruct (reconnectInterval w); [destruct H as [-> | ->] | rewrite H]; simpl; lia.
Qed.

(** A close event while [reconnectInterval] is [undefined] schedules the
    retry: an interval timer of 3000 ms that calls [setupWebSocket]. *)
Lemma close_schedules_retry (i : nat) (code : Z) (reason : string) (w : World) :
  retry_inv w -> reconnectInterval w = None ->
  pending_retries (handle_event (EvSocketClose i code reason) w) =
    [{| handle := next_handle w; callback := Reconnect; delay := 3000 |}] /\
  reconnectInterval (handle_event (EvSocketClose i code reason) w) = Some (next_handle w).
Proof.
  unfold retry_inv. intros Hi Hr. rewrite Hr in Hi.
  unfold handle_event, reaction, onclose, setInterval, console_log. unfold_M. simpl.
  rewrite Hr. simpl. split; [|reflexivity].
  unfold pending_retries in *. simpl. rewrite filter_app, Hi. reflexivity.
Qed.

(** A close event while [reconnectInterval] holds a handle schedules
    nothing, whether the timer of that handle is still pending or not. *)
Lemma close_with_handle (i : nat) (code : Z) (reason : string) (w : World) (h : positive) :
  reconnectInterval w = Some h ->
  pending_retries (handle_event (EvSocketClose i code reason) w) = pending_retries w /\
  reconnectInterval (handle_event (EvSocketClose i code reason) w) = Some h.
Proof.
  intros Hr.
  unfold handle_event, reaction, onclose, setInterval, console_log. unfold_M. simpl.
  rewrite Hr. simpl. split; [reflexivity|assumption].
Qed.

(** From a world where no retry has been scheduled yet, any number of
    close events in a row leaves exactly one retry timer. *)
Lemma close_events_one_retry (n i : nat) (code : Z) (reason : string) (w : World) :
  retry_inv w -> reconnectInterval w = None -> (1 <= n)%nat ->
  pending_retries (close_events n i code reason w) =
    [{| handle := next_handle w; callback := Reconnect; delay := 3000 |}] /\
  reconnectInterval (close_events n i code reason w) = Some (next_handle w).
Proof.
  intros Hi Hr Hn. induction n as [|n IH]; [lia|].
  unfold close_events in *. rewrite Nat.iter_succ.
  destruct n as [|n].
  - simpl. now apply close_schedules_retry.
  - destruct IH as [IH1 IH2]; [lia|].
    destruct (close_with_handle i code reason _ IH2) as [C1 C2].
    split; [now rewrite C1 | exact C2].
Qed.

(** When the retry timer fires, a new socket to the fixed endpoint is
    opened and becomes the current one. *)
Lemma retry_opens_endpoint (w : World) :
  let w' := snd (setupWebSocket w) in
  socket w' = Some (List.length (sockets w)) /\
  nth_error (sockets w') (List.length (sockets w)) =
    Some {| url := "ws://localhost:8080"; readyState := CONNECTING |}.
Proof.
  unfold setupWebSocket, WebSocket_close, WebSocket_new, console_log. unfold_M.
  assert (L : forall i r l, List.length (set_readyState i r l) = List.length l).
  { intros i r l. revert i. induction l; destruct i; simpl; auto. }
  assert (K : forall (l : list WebSocket) x n,
             List.length l = n -> nth_error (l ++ [x]) n = Some x).
  { intros l x n <-. rewrite nth_error_app2, Nat.sub_diag; auto. }
  destruct (socket w) as [i|]; simpl.
  - destruct (readyState_of i w); simpl; split;
      rewrite ?L; try reflexivity; apply K; now rewrite ?L.
  - split; [reflexivity|]. now apply K.
Qed.

(* ----------------------------------------------------------------- *)
(** *** After the handle has gone stale *)

Lemma nth_error_set_readyState (i j : nat) (r : ReadyState) (l : list WebSocket) :
  i <> j -> nth_error (set_readyState j r l) i = nth_error l i.
Proof.
  revert i j. induction l as [|s l IH]; intros i j Hij; destruct j, i; simpl;
    try reflexivity; try congruence.
  apply IH. congruence.
Qed.

Lemma quiet_stranded (fs : list string) (w w' : World) :
  quiet w w' -> stranded fs w -> stranded fs w'.
Proof.
  intros [Hc Hs] (S1 & S2 & S3 & S4 & S5).
  assert (Ho : is_open w = false).
  { unfold is_open. now rewrite S2. }
  destruct (Hs Ho) as [Q1 Q2].
  destruct Hc as (C1 & C2 & C3 & C4 & C5 & C6).
  unfold stranded, connection_state, readyState_of, pending_retries, frames in *.
  rewrite C1, C2, C3, C5, C6, Q2. auto.
Qed.

Lemma no_retry_pending_callback (w : World) (h : positive) (t : Timer) :
  pending_retries w = [] -> find_timer h w = Some t -> callback t = DetectFaces.
Proof.
  intros Hp Hf. apply find_some in Hf as [Hin _].
  destruct (callback t) eqn:Ec; [|reflexivity].
  assert (In t (pending_retries w)).
  { unfold pending_retries. apply filter_In. split; [assumption|now rewrite Ec]. }
  rewrite Hp in *. contradiction.
Qed.

Lemma stranded_step (fs : list string) (ev : Event) (w : World) :
  stranded fs w -> enabled ev w = true -> stranded fs (handle_event ev w).
Proof.
  intros Hs He. pose proof Hs as (S1 & S2 & S3 & S4 & S5).
  unfold handle_event.
  destruct ev as [f | l | j | j | j code reason | h ready | found resize | | now];
    simpl in He |- *.
  - rewrite S1 in He. discriminate.
  - rewrite S1 in He. discriminate.
  - (* open event of another socket *)
    unfold connection_state, readyState_of in S2.
    destruct (socket w) as [i|] eqn:Es; [|discriminate].
    assert (Hij : i <> j).
    { intros ->. destruct (nth_error (sockets w) j) as [s|]; [|discriminate].
      inversion S2 as [E]. rewrite E in He. discriminate. }
    unfold onopen, clearInterval, console_log. unfold_M. simpl.
    destruct (reconnectInterval w) as [h|] eqn:Er; [|congruence]. simpl.
    unfold stranded, connection_state, readyState_of, frames. simpl.
    rewrite Es, Er, (nth_error_set_readyState OPEN (sockets w) Hij).
    repeat split; auto; try congruence.
    rewrite (pending_retries_filter _ (set_console _ (set_sockets _ w))).
    unfold pending_retries in *. simpl. now rewrite S3.
  - unfold onerror, console_log. unfold_M. simpl. exact Hs.
  - (* close event of another socket *)
    unfold connection_state, readyState_of in S2.
    destruct (socket w) as [i|] eqn:Es; [|discriminate].
    assert (Hij : i <> j).
    { intros ->. destruct (nth_error (sockets w) j) as [s|]; [|discriminate].
      inversion S2 as [E]. rewrite E in He. discriminate. }
    unfold onclose, console_log. unfold_M. simpl.
    destruct (reconnectInterval w) as [h|] eqn:Er; [|congruence]. simpl.
    unfold stranded, connection_state, readyState_of, frames. simpl.
    rewrite Es, Er, (nth_error_set_readyState CLOSED (sockets w) Hij).
    repeat split; auto; congruence.
  - (* only the detection loop can tick *)
    unfold_M. simpl.
    destruct (find_timer h w) as [t|] eqn:Ef; simpl; [|exact Hs].
    rewrite (no_retry_pending_callback w h S3 Ef).
    apply (quiet_stranded (w := w)); [apply detect_begin_quiet|exact Hs].
  - apply (quiet_stranded (w := w)); [apply detect_resume_quiet|exact Hs].
  - apply (quiet_stranded (w := w)); [apply draw_quiet|exact Hs].
  - unfold_M. simpl. exact Hs.
Qed.

Lemma stranded_forever (fs : list string) (evs : list Event) :
  forall w, stranded fs w -> feasible evs w = true -> stranded fs (run evs w).
Proof.
  induction evs as [|ev rest IH]; simpl; intros w Hs Hf; [exact Hs|].
  apply andb_prop in Hf as [He Hf].
  apply IH; [now apply stranded_step | exact Hf].
Qed.

Lemma feasible_reachable (evs : list Event) :
  forall w, reachable w -> feasible evs w = true -> reachable (run evs w).
Proof.
  induction evs as [|ev rest IH]; simpl; intros w Hr Hf; [exact Hr|].
  apply andb_prop in Hf as [He Hf].
  apply IH; [now apply reach_event | exact Hf].
Qed.

(* ----------------------------------------------------------------- *)
(** *** The formatter *)

Lemma has_box_inv (d : value) :
  has_box d = true ->
  exists props rprops,
    d = VObj props /\ lookup "alignedRect" props = VObj rprops /\
    lookup "box" rprops <> VUndefined /\ lookup "box" rprops <> VNull.
Proof.
  unfold has_box. destruct d as [| | | | |items|props]; simpl; try discriminate.
  destruct (lookup "alignedRect" props) as [| | | | |items|rprops] eqn:Er;
    simpl; try discriminate.
  intros H. exists props, rprops. repeat split; auto.
  - intros E. rewrite E in H. discriminate.
  - intros E. rewrite E in H. discriminate.
Qed.

(** On a record with a bounding box the formatter returns, and what it
    returns is built from the properties of the record and the clock. *)
Lemma formatDataForTD_boxed (d : value) (w : World) :
  has_box d = true ->
  formatDataForTD d w =
    (Normal (WireMessage (clock w)
               (prop d "gender") (prop d "genderProbability") (prop d "age")
               (prop (prop (prop d "alignedRect") "box") "x")
               (prop (prop (prop d "alignedRect") "box") "y")
               (prop (prop (prop d "alignedRect") "box") "width")
               (prop (prop (prop d "alignedRect") "box") "height")
               (prop d "expressions")),
     set_formatted (formatted w ++ [d])%list w).
Proof.
  intros H. destruct (has_box_inv d H) as (props & rprops & -> & Er & Hu & Hn).
  unfold formatDataForTD, Date_now, prop. unfold_M. simpl. rewrite Er. simpl.
  destruct (lookup "box" rprops); try congruence; reflexivity.
Qed.

(** On any other value it throws, the same error whatever the world. *)
Lemma formatDataForTD_unboxed (d : value) :
  has_box d = false ->
  exists e, forall w, fst (formatDataForTD d w) = Throw e.
Proof.
  unfold has_box, formatDataForTD, Date_now. unfold_M.
  destruct d as [| | | | |items|props]; simpl; intros H;
    try (eexists; intros w; reflexivity).
  destruct (lookup "alignedRect" props) as [| | | | |items|rprops];
    simpl in *; try (eexists; intros w; reflexivity).
  destruct (lookup "box" rprops); try discriminate;
    eexists; intros w; reflexivity.
Qed.

(* ----------------------------------------------------------------- *)
(** *** One detection of a draw pass *)

Lemma sendData_cases (data : value) (w : World) :
  sendData data w = (Normal false, w) \/
  exists i, sendData data w =
    (Normal true,
     set_lastSentData (JSON_stringify data)
       (set_wire (wire w ++ [(i, ToString_strval (JSON_stringify data))])%list w)).
Proof.
  destruct (is_open w) eqn:Ho.
  - destruct (is_open_inv _ Ho) as (i & Hs & Hr).
    rewrite (sendData_open data w Hs Hr).
    destruct (strict_neq _ _); [right; eauto | now left].
  - left. now apply sendData_not_open.
Qed.


Lemma draw_detection_boxed (index : nat) (d : value) (w : World) :
  has_box d = true ->
  fst (draw_detection index d w) = Normal tt /\
  In (Text (face_label index (display_gender (prop d "gender"))
                             (display_confidence (prop d "genderProbability"))))
     (screen (snd (draw_detection index d w))).
Proof.
  intros H. pose proof (formatDataForTD_boxed d) as Hf. specialize (fun w => Hf w H).
  destruct (has_box_inv d H) as (props & rprops & -> & Er & Hu & Hn).
  unfold draw_detection, prop, paint, console_log. unfold_M.
  cbn [Get ToBoolean negb]. rewrite Er. cbn [Get ToBoolean negb].
  assert (Hb : exists v, Get (lookup "box" rprops) "x" = Normal v /\
                 exists v1, Get (lookup "box" rprops) "y" = Normal v1 /\
                 exists v2, Get (lookup "box" rprops) "width" = Normal v2 /\
                 exists v3, Get (lookup "box" rprops) "height" = Normal v3).
  { destruct (lookup "box" rprops); try congruence; simpl; eauto 10. }
  destruct Hb as (v & -> & v1 & -> & v2 & -> & v3 & ->).
  rewrite Hf.
  match goal with
  | |- context [sendData ?m ?w'] => destruct (sendData_cases m w') as [E | (i & E)]; rewrite E
  end; simpl; (split; [reflexivity|]); apply in_or_app; right; simpl; auto.
Qed.

(** Everything the callback of [draw] does for a record with a box. *)
Lemma draw_detection_publishes (index : nat) (d : value) (w : World) :
  has_box d = true ->
  fst (draw_detection index d w) = Normal tt /\
  formatted (snd (draw_detection index d w)) = (formatted w ++ [d])%list /\
  frames (snd (draw_detection index d w)) =
    (if accepts (message_of (clock w) d) w
     then frames w ++ [frame_of (clock w) d]
     else frames w)%list /\
  console (snd (draw_detection index d w)) =
    (if accepts (message_of (clock w) d) w
     then console w ++ [LogSent (sent_label index (display_gender (prop d "gender"))
                                   (display_confidence (prop d "genderProbability")))]
     else console w)%list.
Proof.
  intros H.
  assert (Hf : forall w0, formatDataForTD d w0 =
                 (Normal (message_of (clock w0) d),
                  set_formatted (formatted w0 ++ [d])%list w0)).
  { intros w0. now rewrite formatDataForTD_boxed. }
  destruct (has_box_inv d H) as (props & rprops & -> & Er & Hu & Hn).
  unfold draw_detection, prop, paint, console_log, sent_label, frame_of. unfold_M.
  cbn [Get ToBoolean negb]. rewrite Er. cbn [Get ToBoolean negb].
  assert (Hb : exists v, Get (lookup "box" rprops) "x" = Normal v /\
                 exists v1, Get (lookup "box" rprops) "y" = Normal v1 /\
                 exists v2, Get (lookup "box" rprops) "width" = Normal v2 /\
                 exists v3, Get (lookup "box" rprops) "height" = Normal v3).
  { destruct (lookup "box" rprops); try congruence; simpl; eauto 10. }
  destruct Hb as (v & -> & v1 & -> & v2 & -> & v3 & ->).
  rewrite Hf.
  match goal with
  | |- context [sendData (message_of (clock ?w0) ?d0) ?w'] =>
      change (clock w0) with (clock w);
      generalize (message_of (clock w) d0); intros m;
      change (accepts m w) with (accepts m w');
      unfold accepts;
      destruct (is_open w') eqn:Ho;
      [ destruct (is_open_inv _ Ho) as (i & Hs & Hr);
        rewrite (@sendData_open m w' i Hs Hr);
        destruct (strict_neq (JSON_stringify m) (lastSentData w'))
      | rewrite (@sendData_not_open m w' Ho) ]
  end; cbn [andb fst snd]; repeat split; try reflexivity.
  unfold frames. cbn [wire set_wire set_lastSentData set_console].
  now rewrite map_app.
Qed.

Lemma forEach_step (f : nat -> value -> M unit) (index : nat) (d : value)
      (rest : list value) (w : World) :
  fst (f index d w) = Normal tt ->
  forEach f index (d :: rest) w = forEach f (S index) rest (snd (f index d w)).
Proof.
  simpl. unfold bind. destruct (f index d w) as [[[]|e] w']; simpl; congruence.
Qed.

(** C6. Calling [sendData] while the connection is not open (also before
    any socket exists) returns false, throws nothing and leaves the whole
    world, [lastSentData] included, as it was. *)
Theorem send_while_not_open_is_noop (data : value) (w : World) :
  connection_state w <> Connection OPEN ->
  sendData data w = (Normal false, w) /\
  lastSentData (snd (sendData data w)) = lastSentData w.
Proof.
  intros H.
  assert (Ho : is_open w = false).
  { destruct (is_open w) eqn:E; [|reflexivity]. apply is_open_spec in E. contradiction. }
  rewrite (sendData_not_open data w Ho). split; reflexivity.
Qed.

(** C3, amended. [sendData] never throws and returns true exactly when the
    connection is open and the JSON text of the payload differs from
    [lastSentData]; exactly then the text is transmitted and becomes the
    new [lastSentData].  In every other case, a closed connection or an
    unchanged payload on an open one, it returns false and transmits
    nothing. *)
Theorem sendData_result (data : value) (w : World) :
  fst (sendData data w) =
    Normal (is_open w && strict_neq (JSON_stringify data) (lastSentData w)) /\
  frames (snd (sendData data w)) =
    (if is_open w && strict_neq (JSON_stringify data) (lastSentData w)
     then frames w ++ [ToString_strval (JSON_stringify data)]
     else frames w)%list /\
  lastSentData (snd (sendData data w)) =
    (if is_open w && strict_neq (JSON_stringify data) (lastSentData w)
     then JSON_stringify data
     else lastSentData w).
Proof.
  destruct (sendData_effect data w) as (H1 & H2 & H3 & _).
  unfold accepts in *. auto.
Qed.

(** C5, amended. On an open connection, a message whose JSON text is not
    the current snapshot (no snapshot yet, or a different one) is sent,
    an immediate second submission with the same JSON text is suppressed,
    and a following submission with a different text is sent again; the
    connection is open at every call. *)
Theorem idempotent_suppression (m1 m2 m3 : value) (w : World) :
  connection_state w = Connection OPEN ->
  lastSentData w <> JSON_stringify m1 ->
  JSON_stringify m2 = JSON_stringify m1 ->
  JSON_stringify m3 <> JSON_stringify m1 ->
  let r1 := sendData m1 w in
  let r2 := sendData m2 (snd r1) in
  let r3 := sendData m3 (snd r2) in
  fst r1 = Normal true /\ fst r2 = Normal false /\ fst r3 = Normal true /\
  connection_state (snd r1) = Connection OPEN /\
  connection_state (snd r2) = Connection OPEN /\
  frames (snd r3) =
    (frames w ++ [ToString_strval (JSON_stringify m1);
                  ToString_strval (JSON_stringify m3)])%list.
Proof.
  intros Ho Hnew Hsame Hdiff r1 r2 r3.
  destruct (sendData_effect m1 w) as (A1 & A2 & A3 & A4).
  assert (Acc1 : accepts m1 w = true).
  { unfold accepts. apply andb_true_intro. split.
    - now apply is_open_spec.
    - apply strict_neq_true. congruence. }
  rewrite Acc1 in *. fold r1 in A1, A2, A3, A4.
  destruct (sendData_effect m2 (snd r1)) as (B1 & B2 & B3 & B4).
  assert (Acc2 : accepts m2 (snd r1) = false).
  { unfold accepts. apply andb_false_intro2. apply strict_neq_false. congruence. }
  rewrite Acc2 in *. fold r2 in B1, B2, B3, B4.
  destruct (sendData_effect m3 (snd r2)) as (C1 & C2 & C3 & C4).
  assert (Acc3 : accepts m3 (snd r2) = true).
  { unfold accepts. apply andb_true_intro. split.
    - apply is_open_spec. congruence.
    - apply strict_neq_true. congruence. }
  rewrite Acc3 in *. fold r3 in C1, C2, C3, C4.
  repeat split; try congruence.
  rewrite C2, B2, A2, <- app_assoc. reflexivity.
Qed.

(** C1, amended. A message submitted while the connection is not open is
    dropped: [sendData] returns false, transmits nothing and leaves
    [lastSentData] as it was.  The message is therefore not treated as
    already sent: once the connection is open again, and nothing else has
    been sent meanwhile, submitting the identical message returns true and
    transmits it, provided its JSON text is not the last one that was
    really transmitted. *)
Theorem dropped_message_is_sent_after_reconnect
        (data : value) (w : World) (evs : list Event) :
  connection_state w <> Connection OPEN ->
  JSON_stringify data <> lastSentData w ->
  silent evs (snd (sendData data w)) = true ->
  connection_state (run evs (snd (sendData data w))) = Connection OPEN ->
  fst (sendData data w) = Normal false /\
  lastSentData (snd (sendData data w)) = lastSentData w /\
  frames (snd (sendData data w)) = frames w /\
  fst (sendData data (run evs (snd (sendData data w)))) = Normal true /\
  frames (snd (sendData data (run evs (snd (sendData data w))))) =
    (frames w ++ [ToString_strval (JSON_stringify data)])%list.
Proof.
  intros Hc Hd Hevs Ho.
  assert (Hno : is_open w = false).
  { destruct (is_open w) eqn:E; [|reflexivity]. apply is_open_spec in E. contradiction. }
  rewrite (sendData_not_open data w Hno) in *. simpl in *.
  destruct (sendData_effect data (run evs w)) as (A1 & A2 & A3 & A4).
  destruct (run_silent evs w Hevs) as [S1 S2].
  assert (Acc : accepts data (run evs w) = true).
  { unfold accepts. apply andb_true_intro. split.
    - now apply is_open_spec.
    - apply strict_neq_true. congruence. }
  rewrite Acc in A1, A2.
  repeat split; [exact A1|]. rewrite A2. unfold frames. now rewrite S2.
Qed.

(** C8. The result of [formatDataForTD], and so its JSON text, is a
    function of the detection record and the clock reading alone: two
    runs on the same record in worlds with the same clock give equal
    results.  On a record with a bounding box the formatter returns, and
    whatever it returns has the WireMessage shape, stamped with the
    clock. *)
Theorem formatter_deterministic (d : value) (w1 w2 : World) :
  clock w1 = clock w2 ->
  fst (formatDataForTD d w1) = fst (formatDataForTD d w2) /\
  serialized (fst (formatDataForTD d w1)) = serialized (fst (formatDataForTD d w2)) /\
  (has_box d = true -> exists m, fst (formatDataForTD d w1) = Normal m) /\
  (forall m, fst (formatDataForTD d w1) = Normal m ->
     exists gender genderConfidence age x y width height expressions,
       m = WireMessage (clock w1) gender genderConfidence age
                       x y width height expressions).
Proof.
  intros Hc.
  assert (E : fst (formatDataForTD d w1) = fst (formatDataForTD d w2)).
  { destruct (has_box d) eqn:Hb.
    - rewrite !formatDataForTD_boxed by assumption. simpl. now rewrite Hc.
    - destruct (formatDataForTD_unboxed d Hb) as (e & He). now rewrite !He. }
  split; [exact E|]. split; [now rewrite E|]. split.
  - intros Hb. rewrite formatDataForTD_boxed by assumption. simpl. eauto.
  - intros m Hm. destruct (has_box d) eqn:Hb.
    + rewrite formatDataForTD_boxed in Hm by assumption. simpl in Hm.
      inversion Hm. do 8 eexists. reflexivity.
    + destruct (formatDataForTD_unboxed d Hb) as (e & He).
      rewrite He in Hm. discriminate.
Qed.

(** C7, amended. For a detection record that has its bounding box and
    lacks the gender or the gender probability, formatting does not fail
    the pass: the wire message carries the two fields as the record has
    them, so a missing one is [undefined] in the message, not a default.
    The defaults, the label unknown and the number 0, go to the text drawn
    on the canvas and, when the record is sent, to the console message,
    not to the wire message.  The record is processed without an
    exception, so the remaining records of the same pass are processed
    after it. *)
Theorem missing_gender_is_not_defaulted_on_the_wire
        (index : nat) (d : value) (rest : list value) (w : World) :
  has_box d = true ->
  prop d "gender" = VUndefined \/ prop d "genderProbability" = VUndefined ->
  (exists age x y width height expressions,
     fst (formatDataForTD d w) =
       Normal (WireMessage (clock w) (prop d "gender") (prop d "genderProbability")
                           age x y width height expressions)) /\
  (prop d "gender" = VUndefined ->
     display_gender (prop d "gender") = VStr "unknown") /\
  (prop d "genderProbability" = VUndefined ->
     display_confidence (prop d "genderProbability") = VNum Number_zero) /\
  In (Text (face_label index (display_gender (prop d "gender"))
                             (display_confidence (prop d "genderProbability"))))
     (screen (snd (draw_detection index d w))) /\
  console (snd (draw_detection index d w)) =
    (if accepts (message_of (clock w) d) w
     then console w ++ [LogSent (sent_label index (display_gender (prop d "gender"))
                                   (display_confidence (prop d "genderProbability")))]
     else console w)%list /\
  frames (snd (draw_detection index d w)) =
    (if accepts (message_of (clock w) d) w
     then frames w ++ [frame_of (clock w) d]
     else frames w)%list /\
  fst (draw_detection index d w) = Normal tt /\
  forEach draw_detection index (d :: rest) w =
    forEach draw_detection (S index) rest (snd (draw_detection index d w)).
Proof.
  intros Hb _.
  destruct (draw_detection_boxed index d w Hb) as [D1 D2].
  destruct (@draw_detection_publishes index d w Hb) as (_ & _ & D3 & D4).
  split; [|split; [|split; [|split; [|split; [|split; [|split]]]]]].
  - rewrite formatDataForTD_boxed by assumption. simpl. do 6 eexists. reflexivity.
  - intros ->. reflexivity.
  - intros ->. reflexivity.
  - exact D2.
  - exact D4.
  - exact D3.
  - exact D1.
  - now apply forEach_step.
Qed.

(** C9. When the awaited detection call of a tick throws, the error is
    caught in the tick: the handler returns normally, logs the error, and
    neither half of the tick writes [detections], which keeps the value it
    had; the interval timers, the detection loop among them, stay as they
    were. *)
Theorem detection_failure_is_contained
        (error : Error) (resize : list value -> completion (list value))
        (video_ready : bool) (w : World) :
  fst (detect_begin video_ready w) = Normal tt /\
  detections (snd (detect_begin video_ready w)) = detections w /\
  fst (detect_resume (Throw error) resize w) = Normal tt /\
  detections (snd (detect_resume (Throw error) resize w)) = detections w /\
  detections (handle_event (EvDetected (Throw error) resize) w) = detections w /\
  console (snd (detect_resume (Throw error) resize w)) =
    (console w ++ [LogDetectionError error])%list /\
  timers (snd (detect_resume (Throw error) resize w)) = timers w.
Proof.
  unfold handle_event, reaction, detect_begin, detect_resume, console_log. unfold_M.
  destruct video_ready; simpl; repeat split; reflexivity.
Qed.


(** C2. The code does not retry after every close.  In a session where
    the connection is lost and re-established once by the retry timer,
    [onopen] cancels the timer but leaves its handle in
    [reconnectInterval]; at the next close event the test
    [!reconnectInterval] fails and nothing is scheduled.  The connection is
    then closed with no retry pending, and it stays so whatever happens
    afterwards: no retry timer, no open connection, no frame. *)
Theorem no_retry_after_reconnect (now : number) (evs : list Event) :
  feasible evs (run lost_twice (initial now)) = true ->
  feasible lost_twice (initial now) = true /\
  reachable (run lost_twice (initial now)) /\
  connection_state (run lost_twice (initial now)) = Connection CLOSED /\
  pending_retries (run lost_twice (initial now)) = [] /\
  connection_state (run evs (run lost_twice (initial now))) = Connection CLOSED /\
  pending_retries (run evs (run lost_twice (initial now))) = [] /\
  frames (run evs (run lost_twice (initial now))) = [].
Proof.
  intros Hf.
  assert (F : feasible lost_twice (initial now) = true) by reflexivity.
  assert (S : stranded [] (run lost_twice (initial now))).
  { repeat split; try reflexivity. discriminate. }
  pose proof (stranded_forever evs S Hf) as (_ & A & B & _ & C).
  pose proof S as (_ & A0 & B0 & _).
  repeat split; auto.
  apply feasible_reachable; [constructor | exact F].
Qed.

(** C4. The code schedules no retry at all for close events that come
    after a reconnection.  At the end of the session [reconnected_once]
    the connection is open and no retry is pending, yet any number of
    close events in a row from there leaves no retry timer, where one is
    expected: [reconnectInterval] still holds the handle of the timer that
    [onopen] cancelled. *)
Theorem close_events_after_reconnect_schedule_nothing
        (now : number) (n i : nat) (code : Z) (reason : string) :
  feasible reconnected_once (initial now) = true /\
  reachable (run reconnected_once (initial now)) /\
  connection_state (run reconnected_once (initial now)) = Connection OPEN /\
  pending_retries (run reconnected_once (initial now)) = [] /\
  pending_retries (close_events n i code reason (run reconnected_once (initial now))) = [].
Proof.
  assert (F : feasible reconnected_once (initial now) = true) by reflexivity.
  repeat split; try reflexivity.
  - apply feasible_reachable; [constructor | exact F].
  - assert (H : pending_retries (close_events n i code reason
                                   (run reconnected_once (initial now))) = [] /\
                reconnectInterval (close_events n i code reason
                                   (run reconnected_once (initial now))) = Some 2%positive).
    { induction n as [|n [IH1 IH2]].
      - split; reflexivity.
      - unfold close_events in *. rewrite Nat.iter_succ.
        destruct (close_with_handle i code reason _ IH2) as [C1 C2].
        split; [now rewrite C1 | exact C2]. }
    apply H.
Qed.

(* ----------------------------------------------------------------- *)
(** *** When setup gives up *)

Lemma dormant_step (ev : Event) (w : World) :
  dormant w -> enabled ev w = true -> dormant (handle_event ev w).
Proof.
  intros (D1 & D2 & D3 & D4 & D5 & D6 & D7 & D8 & D9) He.
  unfold handle_event.
  destruct ev as [f | l | j | j | j code reason | h ready | found resize | | now];
    simpl in He.
  - rewrite D1 in He. discriminate.
  - rewrite D1 in He. discriminate.
  - rewrite D3 in He. destruct j; discriminate.
  - rewrite D3 in He. destruct j; discriminate.
  - rewrite D3 in He. destruct j; discriminate.
  - unfold find_timer in He. rewrite D4 in He. discriminate.
  - rewrite D5 in He. discriminate.
  - simpl. unfold draw, paint. unfold_M. simpl. rewrite D6. simpl.
    unfold dormant. simpl. repeat split; assumption.
  - simpl. unfold_M. simpl. unfold dormant. simpl. repeat split; assumption.
Qed.

(** X1. When Face-API.js is not loaded, or the loading of its models
    fails, [setup] returns before it opens the socket and before it
    starts the detection loop (lines 92-95 and 107-110).  From then on
    the sketch only draws: whatever events follow, there is no socket,
    no timer, no detection and no frame on the wire, and the status text
    of every draw pass says that the socket is not initialised. *)
Theorem setup_failure_leaves_sketch_dormant
        (now : number) (error : Error) (evs : list Event) (start : list Event) :
  start = [EvSetup false] \/ start = [EvSetup true; EvModels (Throw error)] ->
  feasible evs (run start (initial now)) = true ->
  feasible start (initial now) = true /\
  socket (run evs (run start (initial now))) = None /\
  timers (run evs (run start (initial now))) = [] /\
  detections (run evs (run start (initial now))) = [] /\
  wire (run evs (run start (initial now))) = [] /\
  statusMsg (run evs (run start (initial now))) = "WebSocket: Not initialized".
Proof.
  intros Hs Hf.
  assert (D : dormant (run start (initial now)) /\ feasible start (initial now) = true).
  { destruct Hs as [-> | ->]; split; try reflexivity; repeat split. }
  destruct D as [D F]. split; [exact F|].
  assert (G : forall l w, dormant w -> feasible l w = true -> dormant (run l w)).
  { induction l as [|ev rest IH]; simpl; intros w Dw Fw; [exact Dw|].
    apply andb_prop in Fw as [He Fr]. apply IH; [now apply dormant_step|exact Fr]. }
  destruct (G evs _ D Hf) as (D1 & D2 & D3 & D4 & D5 & D6 & D7 & D8 & D9).
  unfold statusMsg. rewrite D2. repeat split; assumption.
Qed.

(* ----------------------------------------------------------------- *)
(** *** One live socket *)

Lemma length_set_readyState (i : nat) (r : ReadyState) (l : list WebSocket) :
  List.length (set_readyState i r l) = List.length l.
Proof. revert i. induction l; destruct i; simpl; auto. Qed.

Lemma nth_error_set_readyState_same (i : nat) (r : ReadyState) (l : list WebSocket)
      (s : WebSocket) :
  nth_error l i = Some s ->
  nth_error (set_readyState i r l) i = Some {| url := url s; readyState := r |}.
Proof.
  revert i. induction l as [|a l IH]; destruct i; simpl; intros H; try discriminate.
  - now inversion H.
  - now apply IH.
Qed.

Lemma nth_error_set_readyState_inv (i j : nat) (r : ReadyState) (l : list WebSocket)
      (s : WebSocket) :
  nth_error (set_readyState i r l) j = Some s ->
  exists s0, nth_error l j = Some s0 /\ url s = url s0 /\
             (readyState s = readyState s0 \/ (i = j /\ readyState s = r)).
Proof.
  intros H. destruct (Nat.eq_dec j i) as [-> | Hne].
  - destruct (nth_error l i) as [s0|] eqn:E.
    + rewrite (nth_error_set_readyState_same i r l E) in H. inversion H; subst.
      exists s0. simpl. auto.
    + apply nth_error_None in E. rewrite <- (length_set_readyState i r l) in E.
      apply nth_error_None in E. congruence.
  - rewrite (nth_error_set_readyState r l Hne) in H. exists s. auto.
Qed.

Lemma same_connection_one_live_socket (w w' : World) :
  same_connection w w' -> one_live_socket w -> one_live_socket w'.
Proof.
  intros (C1 & C2 & _). unfold one_live_socket. now rewrite C1, C2.
Qed.

Lemma setupWebSocket_one_live_socket : keeps (preserves one_live_socket) setupWebSocket.
Proof.
  intros w [H1 H2].
  assert (G : forall (l : list WebSocket) (w' : World),
             (forall j s, nth_error l j = Some s ->
                url s = "ws://localhost:8080" /\
                (readyState s = CLOSING \/ readyState s = CLOSED)) ->
             socket w' = Some (List.length l) ->
             sockets w' = (l ++ [{| url := "ws://localhost:8080";
                                    readyState := CONNECTING |}])%list ->
             one_live_socket w').
  { intros l w' Hall Hs Hl. unfold one_live_socket. rewrite Hs, Hl. split.
    - rewrite length_app. simpl. lia.
    - intros j s Hj. destruct (Nat.lt_ge_cases j (List.length l)) as [Hlt | Hge].
      + rewrite nth_error_app1 in Hj by assumption.
        destruct (Hall j s Hj) as [U R]. auto.
      + rewrite nth_error_app2 in Hj by assumption.
        destruct (j - List.length l) as [|k] eqn:Ek.
        * simpl in Hj. inversion Hj; subst. simpl. split; [reflexivity|].
          intros Hne. exfalso. apply Hne. f_equal. lia.
        * simpl in Hj. destruct k; discriminate. }
  assert (K : forall i, socket w = Some i ->
             forall j s, nth_error (set_readyState i CLOSING (sockets w)) j = Some s ->
               url s = "ws://localhost:8080" /\
               (readyState s = CLOSING \/ readyState s = CLOSED)).
  { intros i Es j s Hj.
    destruct (nth_error_set_readyState_inv _ _ _ _ Hj) as (s0 & E0 & U & R).
    destruct (H2 j s0 E0) as [U0 R0]. split; [congruence|].
    destruct R as [R | [_ R]]; [|auto].
    destruct (Nat.eq_dec i j) as [<- | Hne].
    - rewrite (nth_error_set_readyState_same i CLOSING _ E0) in Hj.
      inversion Hj; subst. simpl. auto.
    - rewrite R. apply R0. congruence. }
  assert (K' : forall i, socket w = Some i ->
             readyState_of i w = CLOSING \/ readyState_of i w = CLOSED ->
             forall j s, nth_error (sockets w) j = Some s ->
               url s = "ws://localhost:8080" /\
               (readyState s = CLOSING \/ readyState s = CLOSED)).
  { intros i Es Er j s Hj. destruct (H2 j s Hj) as [U0 R0]. split; [assumption|].
    destruct (Nat.eq_dec i j) as [<- | Hne].
    - unfold readyState_of in Er. now rewrite Hj in Er.
    - apply R0. congruence. }
  unfold setupWebSocket, WebSocket_close, WebSocket_new, console_log. unfold_M.
  destruct (socket w) as [i|] eqn:Es; simpl.
  - destruct (readyState_of i w) eqn:Er; simpl.
    + apply (G (set_readyState i CLOSING (sockets w))); [now apply K| |]; reflexivity.
    + apply (G (set_readyState i CLOSING (sockets w))); [now apply K| |]; reflexivity.
    + apply (G (sockets w)); [apply (K' i); auto| |]; reflexivity.
    + apply (G (sockets w)); [apply (K' i); auto| |]; reflexivity.
  - apply (G []); [intros j s Hj; destruct j; discriminate| |]; simpl;
      now rewrite H1.
Qed.

Lemma one_live_socket_step (ev : Event) (w : World) :
  one_live_socket w -> enabled ev w = true -> one_live_socket (handle_event ev w).
Proof.
  intros Hi He. unfold handle_event.
  pose proof setupWebSocket_one_live_socket as Hsetup.
  destruct ev as [f | l | j | j | j code reason | h ready | found resize | | now];
    simpl in He |- *.
  - assert (K : keeps (preserves one_live_socket) (setup_begin f)).
    { unfold setup_begin, console_log. keeps_auto;
        unfold preserves, one_live_socket; simpl; auto. }
    apply (K w Hi).
  - assert (K : keeps (preserves one_live_socket) (setup_resume l)).
    { unfold setup_resume, setInterval, console_log. keeps_auto; auto;
        unfold preserves, one_live_socket; simpl; auto. }
    apply (K w Hi).
  - (* only the current socket can be connecting *)
    destruct (nth_error (sockets w) j) as [s|] eqn:Ej; [|discriminate].
    destruct Hi as [H1 H2]. destruct (H2 j s Ej) as [U R].
    assert (Hc : socket w = Some j).
    { destruct (socket w) as [i|] eqn:Es.
      - destruct (Nat.eq_dec i j) as [-> | Hne]; [reflexivity|].
        destruct R as [R | R]; [congruence| |]; rewrite R in He; discriminate.
      - rewrite H1 in Ej. destruct j; discriminate. }
    unfold onopen, clearInterval, console_log. unfold_M. simpl.
    assert (G : one_live_socket (set_sockets (set_readyState j OPEN (sockets w)) w)).
    { split; simpl.
      - rewrite Hc in *. now rewrite length_set_readyState.
      - intros k s' Hk.
        destruct (nth_error_set_readyState_inv _ _ _ _ Hk) as (s0 & E0 & U' & R').
        destruct (H2 k s0 E0) as [U0 R0]. split; [congruence|].
        intros Hne. destruct R' as [R' | [-> R']]; [|congruence].
        rewrite R'. auto. }
    destruct (reconnectInterval w); simpl; exact G.
  - unfold onerror, console_log. unfold_M. simpl. exact Hi.
  - destruct Hi as [H1 H2].
    assert (G : one_live_socket (set_sockets (set_readyState j CLOSED (sockets w)) w)).
    { split; simpl.
      - destruct (socket w); [now rewrite length_set_readyState|].
        rewrite H1. now destruct j.
      - intros k s' Hk.
        destruct (nth_error_set_readyState_inv _ _ _ _ Hk) as (s0 & E0 & U' & R').
        destruct (H2 k s0 E0) as [U0 R0]. split; [congruence|].
        intros Hne. destruct R' as [R' | [-> R']]; [|auto].
        rewrite R'. auto. }
    unfold onclose, setInterval, console_log. unfold_M. simpl.
    destruct (reconnectInterval w); simpl; exact G.
  - unfold_M. simpl. destruct (find_timer h w) as [t|]; simpl; [|exact Hi].
    destruct (callback t).
    + apply (Hsetup w Hi).
    + apply (same_connection_one_live_socket (w := w));
        [apply detect_begin_quiet | exact Hi].
  - apply (same_connection_one_live_socket (w := w));
      [apply detect_resume_quiet | exact Hi].
  - apply (same_connection_one_live_socket (w := w)); [apply draw_quiet | exact Hi].
  - unfold_M. simpl. exact Hi.
Qed.

Lemma one_live_socket_reachable (w : World) : reachable w -> one_live_socket w.
Proof.
  induction 1 as [now | w ev Hr IH He].
  - split; [reflexivity|]. intros j s Hj. destruct j; discriminate.
  - now apply one_live_socket_step.
Qed.

(** X2. The sketch has one live connection at a time.  In every world it
    can reach, the global [socket] is the WebSocket created last, every
    WebSocket was opened to ws://localhost:8080, and a WebSocket that is
    connecting or open is the current one: [setupWebSocket] closes the
    socket it replaces (lines 13-15), so a superseded socket is closing or
    closed and is never used again. *)
Theorem superseded_sockets_are_closed (w : World) :
  reachable w ->
  one_live_socket w /\
  forall j s, nth_error (sockets w) j = Some s ->
    readyState s = CONNECTING \/ readyState s = OPEN -> socket w = Some j.
Proof.
  intros Hr.
  pose proof (one_live_socket_reachable Hr) as Hi.
  split; [exact Hi|].
  intros j s Hj Hlive. destruct Hi as [H1 H2]. destruct (H2 j s Hj) as [_ R].
  destruct (socket w) as [i|] eqn:Es.
  - destruct (Nat.eq_dec i j) as [-> | Hne]; [reflexivity|].
    destruct R as [R | R]; [congruence| |]; rewrite R in Hlive;
      destruct Hlive; discriminate.
  - rewrite H1 in Hj. destruct j; discriminate.
Qed.

(* ----------------------------------------------------------------- *)
(** *** The timers of a running sketch *)

#[local] Instance same_timers_preorder : PreOrder same_timers.
Proof.
  split.
  - intros w. repeat split.
  - intros a b c (A1 & A2 & A3 & A4) (B1 & B2 & B3 & B4). repeat split; congruence.
Qed.

Lemma setupWebSocket_same_timers : keeps same_timers setupWebSocket.
Proof.
  unfold setupWebSocket, WebSocket_close, WebSocket_new, console_log.
  keeps_auto; repeat split.
Qed.

Lemma setupWebSocket_socket (w : World) : socket (snd (setupWebSocket w)) <> None.
Proof.
  destruct (retry_opens_endpoint w) as [H _]. rewrite H. discriminate.
Qed.

(** Cancelling timers keeps the handles distinct. *)
Lemma handles_after_cancel (keep : Timer -> bool) (ts : list Timer) :
  NoDup (map handle ts) -> NoDup (map handle (filter keep ts)).
Proof.
  induction ts as [|t ts IH]; simpl; intros H; [constructor|].
  apply NoDup_cons_iff in H as [Hn Hd]. destruct (keep t); simpl; [|auto].
  apply NoDup_cons; [|auto]. intros Hin. apply Hn.
  apply in_map_iff in Hin as (t' & E & Ht'). apply filter_In in Ht' as [Ht' _].
  apply in_map_iff. eauto.
Qed.

Lemma timers_inv_same (w w' : World) :
  same_connection w w' -> timers_inv w -> timers_inv w'.
Proof.
  intros (C1 & C2 & C3 & C4 & C5 & C6).
  unfold timers_inv, detect_timers. now rewrite C1, C2, C3, C4, C5, C6.
Qed.

Lemma filter_detect_keep (h : positive) (l : list Timer) :
  (forall t, In t l -> handle t = h -> callback t = Reconnect) ->
  filter (fun t => match callback t with DetectFaces => true | Reconnect => false end)
         (filter (fun t => negb (Pos.eqb (handle t) h)) l) =
  filter (fun t => match callback t with DetectFaces => true | Reconnect => false end) l.
Proof.
  induction l as [|a l IH]; simpl; intros H; [reflexivity|].
  destruct (Pos.eqb (handle a) h) eqn:E; simpl.
  - apply Pos.eqb_eq in E. rewrite (H a (or_introl eq_refl) E).
    apply IH. intros t Ht. apply H. now right.
  - rewrite IH; [reflexivity|]. intros t Ht. apply H. now right.
Qed.

Lemma timers_inv_step (ev : Event) (w : World) :
  timers_inv w -> enabled ev w = true -> timers_inv (handle_event ev w).
Proof.
  intros Hi He. pose proof Hi as (Ia & Ib & Ic & Id & Ie). unfold handle_event.
  destruct ev as [f | l | j | j | j code reason | h ready | found resize | | now];
    simpl in He |- *.
  - (* setup begins: no socket yet *)
    assert (Hs : socket w = None).
    { destruct (socket w) eqn:Es; [|reflexivity].
      destruct Ie as [E _]; [discriminate|]. rewrite E in He. discriminate. }
    destruct (Id Hs) as (T & R & S).
    unfold setup_begin, console_log. unfold_M.
    destruct f; simpl; unfold timers_inv, detect_timers; simpl;
      rewrite T, R, S, Hs; repeat split; try constructor;
      try discriminate; try contradiction; try congruence.
  - assert (Hs : socket w = None).
    { destruct (socket w) eqn:Es; [|reflexivity].
      destruct Ie as [E _]; [discriminate|]. rewrite E in He. discriminate. }
    destruct (Id Hs) as (T & R & S).
    destruct l as [[]|e].
    + pose proof (setupWebSocket_same_timers
                    (set_console (console w ++ [LogModelsLoaded]) w))
        as (K1 & K2 & K3 & K4).
      pose proof (setupWebSocket_socket
                    (set_console (console w ++ [LogModelsLoaded]) w)) as K5.
      unfold setup_resume, setInterval, console_log. unfold_M. simpl.
      destruct (setupWebSocket (set_console (console w ++ [LogModelsLoaded]) w))
        as [[[]|e] w1] eqn:Ew; simpl in *.
      * unfold timers_inv, detect_timers. simpl. rewrite K1, K2, K3, T, R. simpl.
        repeat split; try discriminate; try contradiction.
        -- intros t [<- | []]. simpl. lia.
        -- constructor; [intros []|constructor].
        -- eauto.
      * exfalso.
        assert (X : fst (setupWebSocket (set_console (console w ++ [LogModelsLoaded]) w))
                    = Normal tt).
        { unfold setupWebSocket, WebSocket_close, WebSocket_new, console_log.
          unfold_M. simpl. rewrite Hs. reflexivity. }
        rewrite Ew in X. discriminate.
    + unfold setup_resume, console_log. unfold_M. simpl.
      unfold timers_inv, detect_timers; simpl;
        rewrite T, R, S, Hs; repeat split; try constructor;
        try discriminate; try contradiction; try congruence.
  - (* open: the timer named by reconnectInterval is cancelled *)
    assert (Hs : socket w <> None).
    { intros Hs. destruct (Id Hs) as (_ & _ & S). rewrite S in He.
      destruct j; discriminate. }
    destruct (Ie Hs) as (P & d & D).
    unfold onopen, clearInterval, console_log. unfold_M. simpl.
    destruct (reconnectInterval w) as [h|] eqn:Er; simpl.
    + destruct (Ic h eq_refl) as [Ic1 Ic2].
      unfold timers_inv, detect_timers. simpl. rewrite Er. repeat split.
      * intros t Ht. apply filter_In in Ht as [Ht _]. auto.
      * now apply handles_after_cancel.
      * inversion H; subst. exact Ic1.
      * intros t Ht E. inversion H; subst. apply filter_In in Ht as [Ht _]. auto.
      * contradiction.
      * contradiction.
      * contradiction.
      * exact P.
      * exists d. rewrite filter_detect_keep by exact Ic2. exact D.
    + unfold timers_inv, detect_timers. simpl. rewrite Er.
      repeat split; auto; try contradiction; try discriminate. eauto.
  - unfold onerror, console_log. unfold_M. simpl. exact Hi.
  - (* close: a retry is scheduled under a fresh handle, or nothing happens *)
    assert (Hs : socket w <> None).
    { intros Hs. destruct (Id Hs) as (_ & _ & S). rewrite S in He.
      destruct j; discriminate. }
    destruct (Ie Hs) as (P & d & D).
    unfold onclose, setInterval, console_log. unfold_M. simpl.
    destruct (reconnectInterval w) as [h|] eqn:Er; simpl.
    + unfold timers_inv, detect_timers. simpl. rewrite Er.
      repeat split; auto; try contradiction; try (now apply Ic). eauto.
    + unfold timers_inv, detect_timers. simpl. repeat split.
      * intros t Ht. apply in_app_or in Ht as [Ht | [<- | []]]; simpl;
          [specialize (Ia t Ht)|]; lia.
      * rewrite map_app. simpl. apply NoDup_app; [exact Ib| |].
        -- constructor; [intros []|constructor].
        -- intros x Hx [<- | []]. apply in_map_iff in Hx as (t & E & Ht).
           specialize (Ia t Ht). lia.
      * inversion H; subst. lia.
      * intros t Ht E. inversion H; subst.
        apply in_app_or in Ht as [Ht | [<- | []]]; [|reflexivity].
        specialize (Ia t Ht). lia.
      * contradiction.
      * contradiction.
      * contradiction.
      * exact P.
      * exists d. unfold detect_timers in D. rewrite filter_app, D. reflexivity.
  - (* a timer fires *)
    assert (Hs : socket w <> None).
    { intros Hs. destruct (Id Hs) as (T & _). unfold find_timer in He.
      rewrite T in He. discriminate. }
    unfold_M. simpl. destruct (find_timer h w) as [t|]; simpl; [|exact Hi].
    destruct (callback t).
    + pose proof (setupWebSocket_same_timers w) as (K1 & K2 & K3 & K4).
      pose proof (setupWebSocket_socket w) as K5.
      destruct (Ie Hs) as (P & d & D).
      unfold timers_inv, detect_timers. rewrite K1, K2, K3, K4.
      repeat split; auto; try contradiction; try (now apply Ic). eauto.
    + apply (timers_inv_same (w := w)); [apply detect_begin_quiet | exact Hi].
  - apply (timers_inv_same (w := w)); [apply detect_resume_quiet | exact Hi].
  - apply (timers_inv_same (w := w)); [apply draw_quiet | exact Hi].
  - unfold_M. simpl. exact Hi.
Qed.

Lemma timers_inv_reachable (w : World) : reachable w -> timers_inv w.
Proof.
  induction 1 as [now | w ev Hr IH He].
  - unfold timers_inv. simpl. repeat split; try constructor;
      try discriminate; try contradiction.
  - now apply timers_inv_step.
Qed.

(** Two pending timers with the same handle are one timer. *)
Lemma same_handle_same_timer (ts : list Timer) (t t' : Timer) :
  NoDup (map handle ts) -> In t ts -> In t' ts -> handle t = handle t' -> t = t'.
Proof.
  induction ts as [|x ts IH]; simpl; intros Hn Ht Ht' E; [contradiction|].
  apply NoDup_cons_iff in Hn as [Hx Hl].
  destruct Ht as [-> | Ht], Ht' as [-> | Ht']; auto.
  - exfalso. apply Hx. rewrite E. now apply in_map.
  - exfalso. apply Hx. rewrite <- E. now apply in_map.
Qed.

Lemma find_timer_some (h : positive) (w : World) (t : Timer) :
  NoDup (map handle (timers w)) -> In t (timers w) -> handle t = h ->
  find_timer h w = Some t.
Proof.
  intros Hn Hin <-. unfold find_timer.
  destruct (find (fun t0 => Pos.eqb (handle t0) (handle t)) (timers w)) as [t'|] eqn:E.
  - apply find_some in E as [Hin' E']. apply Pos.eqb_eq in E'.
    f_equal. now apply (same_handle_same_timer (timers w)).
  - exfalso. apply (find_none _ _ E) in Hin. now rewrite Pos.eqb_refl in Hin.
Qed.

(** X3. In every world the sketch can reach at most one retry timer is
    pending, and a pending retry timer is the one whose handle is in
    [reconnectInterval]: an interval of 3000 ms that calls
    [setupWebSocket] (lines 32-35). *)
Theorem retry_timer_is_unique (w : World) :
  reachable w ->
  (List.length (pending_retries w) <= 1)%nat /\
  forall t, In t (pending_retries w) ->
    reconnectInterval w = Some (handle t) /\ delay t = 3000%Z /\ callback t = Reconnect.
Proof.
  intros H. apply retry_inv_reachable in H. unfold retry_inv in H.
  destruct (reconnectInterval w) as [h|].
  - destruct H as [-> | ->]; simpl; (split; [lia|]).
    + intros t [].
    + intros t [<- | []]. simpl. auto.
  - rewrite H. simpl. split; [lia|]. intros t [].
Qed.

(** X4. The first loss of a connection is retried.  In a reachable world
    where [reconnectInterval] is still undefined, any number n >= 1 of
    close events in a row leaves exactly one retry timer, of 3000 ms,
    under a fresh handle that is stored in [reconnectInterval]. *)
Theorem first_loss_schedules_one_retry
        (n i : nat) (code : Z) (reason : string) (w : World) :
  reachable w -> reconnectInterval w = None -> (1 <= n)%nat ->
  retrying (next_handle w) (close_events n i code reason w).
Proof.
  intros Hr Hn Hle. apply retry_inv_reachable in Hr.
  destruct (@close_events_one_retry n i code reason w Hr Hn Hle) as [A B].
  split; assumption.
Qed.

Lemma retrying_find (h : positive) (w : World) :
  timers_inv w -> retrying h w ->
  exists t, find_timer h w = Some t /\ callback t = Reconnect.
Proof.
  intros (_ & _ & Ic & _) [R P].
  assert (Hin : In {| handle := h; callback := Reconnect; delay := 3000 |} (timers w)).
  { assert (X : In {| handle := h; callback := Reconnect; delay := 3000 |}
                   (pending_retries w)) by (rewrite P; now left).
    unfold pending_retries in X. now apply filter_In in X. }
  destruct (find_timer h w) as [t|] eqn:E.
  - exists t. split; [reflexivity|]. unfold find_timer in E.
    apply find_some in E as [Ht Eh]. apply Pos.eqb_eq in Eh.
    now apply (proj2 (Ic h R) t).
  - exfalso. unfold find_timer in E. apply (find_none _ _ E) in Hin.
    simpl in Hin. now rewrite Pos.eqb_refl in Hin.
Qed.

Lemma retrying_same_timers (h : positive) (w w' : World) :
  same_timers w w' -> retrying h w -> retrying h w'.
Proof.
  intros (T & _ & R & _). unfold retrying, pending_retries. now rewrite T, R.
Qed.

Lemma retrying_same_connection (h : positive) (w w' : World) :
  same_connection w w' -> retrying h w -> retrying h w'.
Proof.
  intros (_ & _ & T & _ & R & _). unfold retrying, pending_retries. now rewrite T, R.
Qed.

Lemma retrying_step (h : positive) (ev : Event) (w : World) :
  timers_inv w -> retrying h w -> enabled ev w = true -> is_open_event ev = false ->
  retrying h (handle_event ev w).
Proof.
  intros Hi Hr He Ho. pose proof Hi as (Ia & Ib & Ic & Id & Ie).
  assert (Hs : socket w <> None).
  { intros Hs. destruct (Id Hs) as (_ & R & _). destruct Hr as [R' _]. congruence. }
  destruct (Ie Hs) as [P _].
  destruct ev as [f | l | j | j | j code reason | h' ready | found resize | | now];
    simpl in He, Ho; try discriminate.
  - rewrite P in He. discriminate.
  - rewrite P in He. discriminate.
  - unfold handle_event. simpl. unfold onerror, console_log. unfold_M. simpl. exact Hr.
  - destruct Hr as [R Q].
    destruct (@close_with_handle j code reason w h R) as [C1 C2].
    split; [exact C2 | now rewrite C1].
  - unfold handle_event. simpl. unfold_M. simpl.
    destruct (find_timer h' w) as [t|]; simpl; [|exact Hr].
    destruct (callback t).
    + apply (retrying_same_timers (w := w)); [apply setupWebSocket_same_timers|exact Hr].
    + apply (retrying_same_connection (w := w)); [apply detect_begin_quiet|exact Hr].
  - apply (retrying_same_connection (w := w)); [apply detect_resume_quiet|exact Hr].
  - apply (retrying_same_connection (w := w)); [apply draw_quiet|exact Hr].
  - unfold handle_event. simpl. unfold_M. simpl. exact Hr.
Qed.

(** X5. The retry is an interval, not a single shot (line 34): once it is
    pending it stays pending through everything that can happen short of
    an open event -- failed attempts with their close and error events,
    draw passes, detection ticks -- and every time it fires
    [setupWebSocket] runs: one more WebSocket exists, it is the current
    one and it is connecting. *)
Theorem retry_runs_until_open
        (h : positive) (evs : list Event) (ready : bool) (w : World) :
  reachable w -> retrying h w ->
  feasible evs w = true ->
  forallb (fun ev => negb (is_open_event ev)) evs = true ->
  retrying h (run evs w) /\
  enabled (EvTimer h ready) (run evs w) = true /\
  retrying h (handle_event (EvTimer h ready) (run evs w)) /\
  connection_state (handle_event (EvTimer h ready) (run evs w)) = Connection CONNECTING /\
  List.length (sockets (handle_event (EvTimer h ready) (run evs w))) =
    S (List.length (sockets (run evs w))).
Proof.
  intros Hr Hret Hf Hno.
  assert (G : reachable (run evs w) /\ retrying h (run evs w)).
  { revert w Hr Hret Hf Hno. induction evs as [|ev rest IH]; simpl; intros w Hr Hret Hf Hno.
    - split; assumption.
    - apply andb_prop in Hf as [He Hf]. apply andb_prop in Hno as [Ho Hno].
      apply negb_true_iff in Ho. apply IH; auto.
      + now apply reach_event.
      + apply retrying_step; auto. now apply timers_inv_reachable. }
  destruct G as [Hr' Hret']. split; [exact Hret'|].
  pose proof (timers_inv_reachable Hr') as Hi.
  destruct (retrying_find Hi Hret') as (t & Ef & Ec).
  assert (E : handle_event (EvTimer h ready) (run evs w) = snd (setupWebSocket (run evs w))).
  { unfold handle_event. simpl. unfold_M. simpl. rewrite Ef. simpl. now rewrite Ec. }
  split; [simpl; now rewrite Ef|]. rewrite E.
  destruct (retry_opens_endpoint (run evs w)) as [S1 S2]. simpl in S1, S2.
  split; [|split].
  - apply (retrying_same_timers (w := run evs w));
      [apply setupWebSocket_same_timers|exact Hret'].
  - unfold connection_state, readyState_of. now rewrite S1, S2.
  - assert (L : nth_error (sockets (snd (setupWebSocket (run evs w))))
                          (List.length (sockets (run evs w))) <> None)
      by (rewrite S2; discriminate).
    apply nth_error_Some in L.
    assert (U : (List.length (sockets (snd (setupWebSocket (run evs w))))
                 <= S (List.length (sockets (run evs w))))%nat).
    { unfold setupWebSocket, WebSocket_close, WebSocket_new, console_log. unfold_M.
      destruct (socket (run evs w)) as [i|]; simpl;
        [destruct (readyState_of i (run evs w)); simpl|];
        rewrite length_app, ?length_set_readyState; simpl; lia. }
    lia.
Qed.

(** X6. An open event ends the retrying: the socket that opens is the
    current one, so the connection is open, and [onopen] has cancelled
    the retry timer: none is pending (line 22).  The detection loop is
    not the timer that is cancelled. *)
Theorem open_event_cancels_retry (j : nat) (w : World) :
  reachable w -> enabled (EvSocketOpen j) w = true ->
  connection_state (handle_event (EvSocketOpen j) w) = Connection OPEN /\
  pending_retries (handle_event (EvSocketOpen j) w) = [] /\
  detect_timers (handle_event (EvSocketOpen j) w) = detect_timers w.
Proof.
  intros Hr He.
  pose proof (retry_inv_reachable Hr) as Hret.
  pose proof (timers_inv_reachable Hr) as (_ & _ & Ic & _).
  destruct (one_live_socket_reachable Hr) as [H1 H2].
  simpl in He. destruct (nth_error (sockets w) j) as [s|] eqn:Ej; [|discriminate].
  assert (Hc : socket w = Some j).
  { destruct (socket w) as [i|] eqn:Es.
    - destruct (Nat.eq_dec i j) as [-> | Hne]; [reflexivity|].
      destruct (H2 j s Ej) as [_ [R | R]]; [congruence| |]; rewrite R in He; discriminate.
    - rewrite H1 in Ej. destruct j; discriminate. }
  unfold handle_event. simpl. unfold onopen, clearInterval, console_log. unfold_M. simpl.
  unfold retry_inv in Hret.
  destruct (reconnectInterval w) as [h|] eqn:Er; simpl.
  - unfold connection_state, readyState_of, pending_retries, detect_timers in *. simpl.
    rewrite Hc, (nth_error_set_readyState_same j OPEN _ Ej). simpl.
    split; [reflexivity|]. split.
    + assert (X : forall l, filter (fun t => match callback t with
                                            | Reconnect => true | DetectFaces => false end)
                              (filter (fun t => negb (Pos.eqb (handle t) h)) l) =
                            filter (fun t => negb (Pos.eqb (handle t) h))
                              (filter (fun t => match callback t with
                                            | Reconnect => true | DetectFaces => false end) l)).
      { induction l as [|a l IH]; simpl; [reflexivity|].
        destruct (Pos.eqb (handle a) h) eqn:E1, (callback a) eqn:E2; simpl;
          rewrite ?E1, ?E2, ?IH; reflexivity. }
      rewrite X. destruct Hret as [-> | ->]; simpl; [reflexivity|].
      now rewrite Pos.eqb_refl.
    + apply filter_detect_keep. apply (Ic h eq_refl).
  - unfold connection_state, readyState_of, pending_retries, detect_timers in *. simpl.
    rewrite Hc, (nth_error_set_readyState_same j OPEN _ Ej). simpl. auto.
Qed.

Lemma detection_loop_keeps_running_aux (w : World) :
  reachable w -> socket w <> None ->
  exists d,
    detect_timers w = [{| handle := d; callback := DetectFaces; delay := 100 |}] /\
    find_timer d w = Some {| handle := d; callback := DetectFaces; delay := 100 |}.
Proof.
  intros Hr Hs. pose proof (timers_inv_reachable Hr) as (_ & Ib & _ & _ & Ie).
  destruct (Ie Hs) as (_ & d & D). exists d. split; [exact D|].
  assert (Hin : In {| handle := d; callback := DetectFaces; delay := 100 |} (timers w)).
  { assert (X : In {| handle := d; callback := DetectFaces; delay := 100 |}
                   (detect_timers w)) by (rewrite D; now left).
    unfold detect_timers in X. now apply filter_In in X. }
  apply (@find_timer_some d w _ Ib Hin eq_refl).
Qed.

(** X7. The detection loop is started once and never stopped.  In a
    reachable world where [setup] has opened the socket, exactly one
    detection timer is pending, with a period of 100 ms (line 138), and
    it is enabled; where [setup] has not got that far no timer is pending
    at all.  No reconnection cancels it: [clearInterval] is only ever
    given the handle of a retry timer. *)
Theorem detection_loop_keeps_running (w : World) :
  reachable w ->
  (socket w = None -> timers w = []) /\
  (socket w <> None ->
   exists d,
     detect_timers w = [{| handle := d; callback := DetectFaces; delay := 100 |}] /\
     find_timer d w = Some {| handle := d; callback := DetectFaces; delay := 100 |} /\
     forall ready, enabled (EvTimer d ready) w = true).
Proof.
  intros Hr. pose proof (timers_inv_reachable Hr) as (_ & Ib & _ & Id & Ie).
  split; [intros Hs; now apply Id|].
  intros Hs. destruct (Ie Hs) as (_ & d & D). exists d.
  assert (Hin : In {| handle := d; callback := DetectFaces; delay := 100 |} (timers w)).
  { assert (X : In {| handle := d; callback := DetectFaces; delay := 100 |}
                   (detect_timers w)) by (rewrite D; now left).
    unfold detect_timers in X. now apply filter_In in X. }
  pose proof (@find_timer_some d w _ Ib Hin eq_refl) as F.
  split; [exact D|]. split; [exact F|]. intros ready. simpl. now rewrite F.
Qed.

(* ----------------------------------------------------------------- *)
(** *** Draw passes *)

#[local] Instance same_inputs_preorder : PreOrder same_inputs.
Proof.
  split.
  - intros w. repeat split.
  - intros a b c (A1 & A2 & A3) (B1 & B2 & B3). repeat split; congruence.
Qed.

Lemma draw_same_inputs : keeps same_inputs draw.
Proof.
  unfold draw, draw_detection, formatDataForTD, sendData, WebSocket_send, Date_now,
    paint, console_log.
  keeps_auto; repeat split.
Qed.

(** X8. A draw pass only draws and publishes.  Whatever [detections]
    holds, and also when a record makes the pass throw, it leaves the
    sockets, the timers, [reconnectInterval] and [detections] as they
    were; and when the connection is not open it transmits nothing and
    does not move [lastSentData]: what is drawn during an outage is
    dropped without a trace. *)
Theorem draw_pass_only_draws_and_publishes (w : World) :
  same_connection w (snd (draw w)) /\
  detections (snd (draw w)) = detections w /\
  (connection_state w <> Connection OPEN ->
   wire (snd (draw w)) = wire w /\ lastSentData (snd (draw w)) = lastSentData w).
Proof.
  destruct (draw_quiet w) as [C S]. destruct (draw_same_inputs w) as (D & _).
  split; [exact C|]. split; [exact D|].
  intros Hc. destruct S as [S1 S2]; [|auto].
  destruct (is_open w) eqn:E; [|reflexivity]. apply is_open_spec in E. contradiction.
Qed.

(** X9. The snapshot outlives the connection.  A message submitted on an
    open connection -- sent, or refused as a duplicate -- is still the
    snapshot when the connection has been lost and re-established with
    nothing sent in between, so submitting it again on the new socket is
    refused and transmits nothing: [lastSentData] is not reset by
    [setupWebSocket] or by any socket event. *)
Theorem suppression_survives_reconnection
        (data : value) (w : World) (evs : list Event) :
  connection_state w = Connection OPEN ->
  silent evs (snd (sendData data w)) = true ->
  connection_state (run evs (snd (sendData data w))) = Connection OPEN ->
  lastSentData (run evs (snd (sendData data w))) = JSON_stringify data /\
  fst (sendData data (run evs (snd (sendData data w)))) = Normal false /\
  frames (snd (sendData data (run evs (snd (sendData data w))))) =
    frames (snd (sendData data w)).
Proof.
  intros Ho Hs Ho'.
  destruct (sendData_effect data w) as (_ & _ & A3 & _).
  assert (L : lastSentData (snd (sendData data w)) = JSON_stringify data).
  { rewrite A3. unfold accepts. apply is_open_spec in Ho. rewrite Ho. simpl.
    destruct (strict_neq _ _) eqn:E; [reflexivity|].
    apply strict_neq_false in E. congruence. }
  destruct (run_silent evs _ Hs) as [S1 S2].
  destruct (sendData_effect data (run evs (snd (sendData data w)))) as (B1 & B2 & _).
  assert (Acc : accepts data (run evs (snd (sendData data w))) = false).
  { unfold accepts. apply andb_false_intro2. apply strict_neq_false. congruence. }
  rewrite Acc in B1, B2. split; [congruence|]. split; [exact B1|].
  rewrite B2. unfold frames. now rewrite S2.
Qed.

(** X10. What a detection tick leaves in [detections] (lines 125-136).
    When the detection call returns, its result is stored first and then
    replaced by the resized result; when [resizeResults] throws, the
    error is caught and [detections] keeps the result that was not
    resized.  Either way the tick returns normally and touches neither
    the connection nor the snapshot. *)
Theorem detection_tick_result
        (found : list value) (resize : list value -> completion (list value))
        (w : World) :
  fst (detect_resume (Normal found) resize w) = Normal tt /\
  detections (snd (detect_resume (Normal found) resize w)) =
    match resize found with
    | Normal resized => resized
    | Throw _ => found
    end /\
  (forall error, resize found = Throw error ->
     console (snd (detect_resume (Normal found) resize w)) =
       (console w ++ [LogDetectionError error])%list) /\
  same_connection w (snd (detect_resume (Normal found) resize w)) /\
  same_snapshot w (snd (detect_resume (Normal found) resize w)).
Proof.
  unfold detect_resume, console_log. unfold_M. simpl.
  destruct (resize found) as [resized|e]; simpl; repeat split; try discriminate.
  intros error E. now inversion E.
Qed.

Lemma draw_detection_boxless (index : nat) (d : value) (w : World) :
  boxless d -> exists e, draw_detection index d w = (Throw e, w).
Proof.
  intros (Hd & (r & Hr & Ht) & Hb).
  unfold has_box in Hb. rewrite Hr in Hb.
  unfold draw_detection. unfold_M. rewrite Hd, Hr, Ht. simpl.
  destruct (Get r "box") as [b|e] eqn:Eb.
  - destruct b; try discriminate; simpl; eauto.
  - destruct r; simpl in *; discriminate.
Qed.

(** X11. A record that passes the test of line 148 but whose alignedRect
    has no box stops the pass.  The destructuring of line 150 throws
    before anything is drawn or sent for the record; [forEach] ends
    there, so the records after it are not processed, and [draw] ends
    before the status text is painted. *)
Theorem boxless_record_stops_the_pass
        (index : nat) (d : value) (rest : list value) (w : World) :
  boxless d ->
  (exists e, forEach draw_detection index (d :: rest) w = (Throw e, w)) /\
  (detections w = d :: rest ->
   exists e, fst (draw w) = Throw e /\
             screen (snd (draw w)) = (screen w ++ [VideoFrame])%list /\
             wire (snd (draw w)) = wire w /\
             formatted (snd (draw w)) = formatted w).
Proof.
  intros Hb. split.
  - destruct (draw_detection_boxless index w Hb) as (e & E).
    exists e. simpl. unfold bind. now rewrite E.
  - intros Hd. unfold draw, paint. unfold_M.
    change (detections (set_screen (screen w ++ [VideoFrame]) w)) with (detections w).
    rewrite Hd. cbn [List.length Nat.ltb Nat.leb forEach]. unfold bind.
    destruct (draw_detection_boxless 0 (set_screen (screen w ++ [VideoFrame]) w) Hb)
      as (e & E).
    rewrite E. simpl. eauto.
Qed.

(* ----------------------------------------------------------------- *)
(** *** What goes on the wire *)

Lemma list_ascii_app (a b : string) :
  list_ascii_of_string (a ++ b) =
  (list_ascii_of_string a ++ list_ascii_of_string b)%list.
Proof. induction a as [|c a IH]; simpl; [reflexivity|]. now rewrite IH. Qed.

Lemma list_ascii_inj (a b : string) :
  list_ascii_of_string a = list_ascii_of_string b -> a = b.
Proof.
  intros H. rewrite <- (string_of_list_ascii_of_string a),
              <- (string_of_list_ascii_of_string b). now rewrite H.
Qed.

Lemma string_app_cancel (p a b s : string) :
  p ++ a ++ s = p ++ b ++ s -> a = b.
Proof.
  intros H. apply list_ascii_inj. apply (f_equal list_ascii_of_string) in H.
  rewrite !list_ascii_app in H. apply app_inv_head in H. now apply app_inv_tail in H.
Qed.

Lemma string_app_assoc (a b c : string) : (a ++ b) ++ c = a ++ b ++ c.
Proof. induction a as [|x a IH]; simpl; [reflexivity|]. now rewrite IH. Qed.

(** The JSON text of a message is a string, and two messages of one
    record have the same text exactly when their timestamps print the
    same. *)
Lemma message_json (d : value) :
  exists p s, forall t,
    JSON_stringify (message_of t d) =
    SString (p ++ ToString_strval (JSON_stringify (VNum t)) ++ s).
Proof.
  unfold message_of, WireMessage, JSON_stringify.
  cbn [SerializeJSONProperty flat_map map fst snd app].
  set (F := join "," _).
  exists ("{" ++ QuoteJSONString "timestamp" ++ ":"),
         ("," ++ (QuoteJSONString "face" ++ ":" ++ "{" ++ F ++ "}") ++ "}").
  intros t. cbn [join ToString_strval]. f_equal.
  rewrite !string_app_assoc. reflexivity.
Qed.

Lemma message_json_eq (t1 t2 : number) (d : value) :
  JSON_stringify (message_of t1 d) = JSON_stringify (message_of t2 d) <->
  JSON_stringify (VNum t1) = JSON_stringify (VNum t2).
Proof.
  destruct (message_json d) as (p & s & H). rewrite !H. split.
  - intros E. inversion E as [E']. apply string_app_cancel in E'.
    unfold JSON_stringify in *. simpl in *. now rewrite E'.
  - intros ->. reflexivity.
Qed.

Lemma draw_detection_same_inputs (index : nat) (d : value) :
  keeps same_inputs (draw_detection index d).
Proof.
  unfold draw_detection, formatDataForTD, sendData, WebSocket_send, Date_now,
    paint, console_log.
  keeps_auto; repeat split.
Qed.

(** What the callback of [draw] publishes for a record with a box. *)
Lemma draw_detection_effect (index : nat) (d : value) (w : World) :
  has_box d = true ->
  fst (draw_detection index d w) = Normal tt /\
  frames (snd (draw_detection index d w)) =
    (if accepts (message_of (clock w) d) w
     then frames w ++ [frame_of (clock w) d]
     else frames w)%list /\
  lastSentData (snd (draw_detection index d w)) =
    (if accepts (message_of (clock w) d) w
     then JSON_stringify (message_of (clock w) d)
     else lastSentData w).
Proof.
  intros H.
  assert (Hf : forall w0, formatDataForTD d w0 =
                 (Normal (message_of (clock w0) d),
                  set_formatted (formatted w0 ++ [d])%list w0)).
  { intros w0. now rewrite formatDataForTD_boxed. }
  destruct (has_box_inv d H) as (props & rprops & -> & Er & Hu & Hn).
  unfold draw_detection, paint, console_log. unfold_M.
  cbn [Get ToBoolean negb]. rewrite Er. cbn [Get ToBoolean negb].
  assert (Hb : exists v, Get (lookup "box" rprops) "x" = Normal v /\
                 exists v1, Get (lookup "box" rprops) "y" = Normal v1 /\
                 exists v2, Get (lookup "box" rprops) "width" = Normal v2 /\
                 exists v3, Get (lookup "box" rprops) "height" = Normal v3).
  { destruct (lookup "box" rprops); try congruence; simpl; eauto 10. }
  destruct Hb as (v & -> & v1 & -> & v2 & -> & v3 & ->).
  rewrite Hf. unfold frame_of.
  match goal with
  | |- context [sendData (message_of (clock ?w0) ?d0) ?w'] =>
      change (clock w0) with (clock w);
      generalize (message_of (clock w) d0); intros m;
      destruct (sendData_effect m w') as (A1 & A2 & A3 & _);
      change (accepts m w') with (accepts m w) in A1, A2, A3;
      change (frames w') with (frames w) in A2;
      change (lastSentData w') with (lastSentData w) in A3;
      destruct (sendData m w') as [[b|e] w3]
  end; cbn [fst snd] in A1, A2, A3; [|discriminate].
  inversion A1 as [Eb].
  destruct (accepts m w); cbn [fst snd]; auto.
Qed.

Lemma draw_detection_frame (index : nat) (d : value) (w : World) :
  same_connection w (snd (draw_detection index d w)) /\
  clock (snd (draw_detection index d w)) = clock w /\
  is_open (snd (draw_detection index d w)) = is_open w.
Proof.
  destruct (draw_detection_quiet index d w) as [C _].
  destruct (draw_detection_same_inputs index d w) as (_ & K & _).
  split; [exact C|]. split; [exact K|]. now apply same_connection_is_open.
Qed.

(** X12. The timestamp is part of what the change filter compares.  Draw
    a record with a box on an open connection, let the clock move, and
    draw the same record again: the second message is suppressed only if
    the new clock reading prints like the old one; otherwise it is
    transmitted, although nothing in the face has changed. *)
Theorem timestamp_decides_suppression
        (index : nat) (d : value) (later : number) (w : World) :
  has_box d = true ->
  connection_state w = Connection OPEN ->
  frames (snd (draw_detection index d
                 (handle_event (EvClock later) (snd (draw_detection index d w))))) =
    (if strict_neq (JSON_stringify (VNum later)) (JSON_stringify (VNum (clock w)))
     then frames (snd (draw_detection index d w)) ++ [frame_of later d]
     else frames (snd (draw_detection index d w)))%list.
Proof.
  intros Hb Ho. apply is_open_spec in Ho.
  destruct (@draw_detection_effect index d w Hb) as (_ & _ & L1).
  destruct (draw_detection_frame index d w) as (_ & _ & O1).
  assert (L : lastSentData (snd (draw_detection index d w))
              = JSON_stringify (message_of (clock w) d)).
  { rewrite L1. unfold accepts. rewrite Ho. cbn [andb].
    destruct (strict_neq (JSON_stringify (message_of (clock w) d)) (lastSentData w))
      eqn:E; [reflexivity|].
    apply strict_neq_false in E. congruence. }
  set (w1 := snd (draw_detection index d w)) in *.
  set (w2 := handle_event (EvClock later) w1).
  destruct (@draw_detection_effect index d w2 Hb) as (_ & F2 & _).
  rewrite F2.
  change (clock w2) with later. change (frames w2) with (frames w1).
  unfold accepts. change (is_open w2) with (is_open w1).
  change (lastSentData w2) with (lastSentData w1).
  rewrite O1, Ho, L. cbn [andb].
  destruct (strict_neq (JSON_stringify (VNum later)) (JSON_stringify (VNum (clock w))))
    eqn:E.
  - assert (X : strict_neq (JSON_stringify (message_of later d))
                           (JSON_stringify (message_of (clock w) d)) = true).
    { apply strict_neq_true. intros Q. apply message_json_eq in Q.
      apply strict_neq_true in E. contradiction. }
    now rewrite X.
  - assert (X : strict_neq (JSON_stringify (message_of later d))
                           (JSON_stringify (message_of (clock w) d)) = false).
    { apply strict_neq_false. apply message_json_eq. now apply strict_neq_false. }
    now rewrite X.
Qed.

Lemma pass_two (d1 d2 : value) (w : World) :
  has_box d1 = true -> has_box d2 = true -> is_open w = true ->
  lastSentData w <> JSON_stringify (message_of (clock w) d1) ->
  JSON_stringify (message_of (clock w) d1) <> JSON_stringify (message_of (clock w) d2) ->
  frames (pass [d1; d2] w) =
    (frames w ++ [frame_of (clock w) d1; frame_of (clock w) d2])%list /\
  lastSentData (pass [d1; d2] w) = JSON_stringify (message_of (clock w) d2) /\
  is_open (pass [d1; d2] w) = true /\ clock (pass [d1; d2] w) = clock w.
Proof.
  intros B1 B2 Ho N1 N12. unfold pass.
  destruct (@draw_detection_effect 0 d1 w B1) as (R1 & F1 & L1).
  destruct (draw_detection_frame 0 d1 w) as (_ & K1 & O1).
  rewrite (@forEach_step draw_detection 0 d1 [d2] w R1).
  set (w1 := snd (draw_detection 0 d1 w)) in *.
  destruct (@draw_detection_effect 1 d2 w1 B2) as (R2 & F2 & L2).
  destruct (draw_detection_frame 1 d2 w1) as (_ & K2 & O2).
  rewrite (@forEach_step draw_detection 1 d2 [] w1 R2). simpl.
  assert (A1 : accepts (message_of (clock w) d1) w = true).
  { unfold accepts. rewrite Ho. cbn [andb]. apply strict_neq_true. congruence. }
  rewrite A1 in F1, L1.
  assert (A2 : accepts (message_of (clock w1) d2) w1 = true).
  { unfold accepts. rewrite O1, Ho, L1, K1. cbn [andb]. apply strict_neq_true.
    congruence. }
  rewrite A2 in F2, L2. rewrite K1 in F2, L2.
  rewrite F2, F1, L2, <- app_assoc. simpl. repeat split; congruence.
Qed.

Lemma concat_repeat_snoc (A : Type) (l : list A) (n : nat) :
  (List.concat (repeat l n) ++ l = l ++ List.concat (repeat l n))%list.
Proof.
  induction n as [|n IH]; simpl; [now rewrite app_nil_r|].
  now rewrite <- app_assoc, IH.
Qed.

Lemma repeated_passes (d1 d2 : value) (n : nat) (w : World) :
  has_box d1 = true -> has_box d2 = true ->
  connection_state w = Connection OPEN ->
  lastSentData w <> JSON_stringify (message_of (clock w) d1) ->
  JSON_stringify (message_of (clock w) d1) <> JSON_stringify (message_of (clock w) d2) ->
  frames (Nat.iter n (pass [d1; d2]) w) =
    (frames w ++ List.concat (repeat [frame_of (clock w) d1; frame_of (clock w) d2] n))%list.
Proof.
  intros B1 B2 Ho N1 N12. apply is_open_spec in Ho.
  assert (G : frames (Nat.iter n (pass [d1; d2]) w) =
                (frames w ++ List.concat (repeat [frame_of (clock w) d1;
                                             frame_of (clock w) d2] n))%list /\
              is_open (Nat.iter n (pass [d1; d2]) w) = true /\
              clock (Nat.iter n (pass [d1; d2]) w) = clock w /\
              lastSentData (Nat.iter n (pass [d1; d2]) w)
                <> JSON_stringify (message_of (clock w) d1)).
  { induction n as [|n (F & O & K & L)].
    - simpl. rewrite app_nil_r. auto.
    - rewrite Nat.iter_succ.
      destruct (@pass_two d1 d2 (Nat.iter n (pass [d1; d2]) w) B1 B2 O)
        as (F' & L' & O' & K').
      + now rewrite K.
      + now rewrite K.
      + rewrite K in F', L', K'. rewrite F', F, L'.
        repeat split; auto.
        rewrite <- app_assoc. f_equal.
        cbn [repeat List.concat]. apply concat_repeat_snoc. }
  apply G.
Qed.

Lemma first_pass (d1 d2 : value) (w : World) :
  has_box d1 = true -> has_box d2 = true -> is_open w = true ->
  JSON_stringify (message_of (clock w) d1) <> JSON_stringify (message_of (clock w) d2) ->
  frames (pass [d1; d2] w) =
    (frames w ++
     (if strict_neq (JSON_stringify (message_of (clock w) d1)) (lastSentData w)
      then [frame_of (clock w) d1; frame_of (clock w) d2]
      else [frame_of (clock w) d2]))%list /\
  lastSentData (pass [d1; d2] w) = JSON_stringify (message_of (clock w) d2) /\
  is_open (pass [d1; d2] w) = true /\ clock (pass [d1; d2] w) = clock w.
Proof.
  intros B1 B2 Ho N12. unfold pass.
  destruct (@draw_detection_effect 0 d1 w B1) as (R1 & F1 & L1).
  destruct (draw_detection_frame 0 d1 w) as (_ & K1 & O1).
  rewrite (@forEach_step draw_detection 0 d1 [d2] w R1).
  set (w1 := snd (draw_detection 0 d1 w)) in *.
  destruct (@draw_detection_effect 1 d2 w1 B2) as (R2 & F2 & L2).
  destruct (draw_detection_frame 1 d2 w1) as (_ & K2 & O2).
  rewrite (@forEach_step draw_detection 1 d2 [] w1 R2). cbn [forEach ret snd].
  unfold accepts in F1, L1. rewrite Ho in F1, L1. cbn [andb] in F1, L1.
  assert (L : lastSentData w1 = JSON_stringify (message_of (clock w) d1)).
  { rewrite L1.
    destruct (strict_neq (JSON_stringify (message_of (clock w) d1)) (lastSentData w))
      eqn:E; [reflexivity|].
    apply strict_neq_false in E. congruence. }
  assert (A2 : accepts (message_of (clock w1) d2) w1 = true).
  { unfold accepts. rewrite O1, Ho, L, K1. cbn [andb]. apply strict_neq_true.
    congruence. }
  rewrite A2 in F2, L2. rewrite K1 in F2, L2.
  rewrite F2, F1, L2.
  destruct (strict_neq (JSON_stringify (message_of (clock w) d1)) (lastSentData w));
    rewrite <- ?app_assoc; repeat split; congruence.
Qed.

(** X13. The change filter has one slot for all faces.  Take two records
    with a box whose messages differ and run the pass over them on an
    open connection.  The first pass transmits both, in the order of the
    array, unless the snapshot is already the message of the first
    record, in which case it transmits the second only.  Every pass after
    it transmits both, however often the pass is repeated and although
    neither the faces nor the clock change: each message is compared with
    the other face's message, which was sent last. *)
Theorem two_faces_defeat_the_filter (d1 d2 : value) (n : nat) (w : World) :
  has_box d1 = true -> has_box d2 = true ->
  connection_state w = Connection OPEN ->
  JSON_stringify (message_of (clock w) d1) <> JSON_stringify (message_of (clock w) d2) ->
  frames (pass [d1; d2] w) =
    (frames w ++
     (if strict_neq (JSON_stringify (message_of (clock w) d1)) (lastSentData w)
      then [frame_of (clock w) d1; frame_of (clock w) d2]
      else [frame_of (clock w) d2]))%list /\
  frames (Nat.iter n (pass [d1; d2]) (pass [d1; d2] w)) =
    (frames (pass [d1; d2] w)
     ++ List.concat (repeat [frame_of (clock w) d1; frame_of (clock w) d2] n))%list.
Proof.
  intros B1 B2 Ho N12. pose proof Ho as Ho'. apply is_open_spec in Ho'.
  destruct (@first_pass d1 d2 w B1 B2 Ho' N12) as (F & L & O & K).
  split; [exact F|].
  rewrite <- K.
  apply repeated_passes; auto.
  - now apply is_open_spec.
  - rewrite K, L. congruence.
  - now rewrite K.
Qed.

(* ----------------------------------------------------------------- *)
(** *** The wire and the snapshot *)

Lemma last_frame_snoc (l : list string) (t : string) :
  last_frame (l ++ [t]) = SString t.
Proof.
  unfold last_frame. destruct (l ++ [t])%list eqn:E.
  - destruct l; discriminate.
  - rewrite <- E. now rewrite last_last.
Qed.

Lemma no_stutter_snoc (l : list string) (t : string) :
  no_stutter l -> last_frame l <> SString t -> no_stutter (l ++ [t]).
Proof.
  intros Hl Hn pre a b post E.
  destruct (exists_last (l := b :: post)) as (post' & x & Ex); [discriminate|].
  replace (pre ++ a :: b :: post)%list with ((pre ++ a :: post') ++ [x])%list in E
    by (rewrite <- app_assoc; simpl; now rewrite Ex).
  apply app_inj_tail in E as [El Et].
  destruct post' as [|y post'']; simpl in Ex; injection Ex as Eb Ep.
  - (* the new frame is [b] *)
    intros Eab. apply Hn. rewrite El. change (pre ++ [a])%list with (pre ++ [a])%list.
    rewrite last_frame_snoc. congruence.
  - rewrite Eb. apply (Hl pre a y post''). exact El.
Qed.

Lemma wire_inv_same (w w' : World) :
  same_snapshot w w' -> wire_inv w -> wire_inv w'.
Proof.
  intros [S1 S2]. unfold wire_inv, frames. now rewrite S1, S2.
Qed.

Lemma draw_detection_wire_inv (index : nat) (d : value) :
  keeps (preserves wire_inv) (draw_detection index d).
Proof.
  intros w [I1 I2]. destruct (has_box d) eqn:Hb.
  - destruct (@draw_detection_effect index d w Hb) as (_ & F & L).
    destruct (message_json d) as (p & s & J).
    unfold accepts in F, L. unfold wire_inv. rewrite F, L.
    destruct (is_open w && strict_neq _ _) eqn:E; [|split; assumption].
    apply andb_prop in E as [_ E]. apply strict_neq_true in E.
    unfold frame_of. rewrite J in *. simpl ToString_strval. split.
    + now rewrite last_frame_snoc.
    + apply no_stutter_snoc; [exact I2|]. rewrite <- I1.
      intros Q. apply E. symmetry. exact Q.
  - assert (E : snd (draw_detection index d w) = w).
    { unfold draw_detection. unfold_M.
      destruct (ToBoolean d) eqn:Td; simpl; [|reflexivity].
      unfold has_box in Hb.
      destruct (Get d "alignedRect") as [r|e] eqn:Er; simpl; [|reflexivity].
      destruct (ToBoolean r) eqn:Tr; simpl; [|reflexivity].
      destruct (Get r "box") as [b|e] eqn:Eb; simpl; [|reflexivity].
      destruct b; try discriminate; reflexivity. }
    rewrite E. split; assumption.
Qed.

Lemma wire_inv_step (ev : Event) (w : World) :
  wire_inv w -> wire_inv (handle_event ev w).
Proof.
  intros Hi. destruct (is_draw ev) eqn:Ed.
  - destruct ev; try discriminate. unfold handle_event. simpl.
    assert (K : keeps (preserves wire_inv) draw).
    { pose proof draw_detection_wire_inv.
      unfold draw, paint. keeps_auto; auto; intros X; exact X. }
    apply (K w Hi).
  - apply (wire_inv_same (w := w)); [now apply reaction_snapshot | exact Hi].
Qed.

(** X14. The wire never stutters.  In every world the sketch can reach,
    no two frames next to each other on the wire are equal -- across
    sockets too, since the comparison of line 70 does not know of
    reconnections -- and [lastSentData] is null as long as nothing has
    been transmitted and the text of the last frame afterwards. *)
Theorem wire_never_stutters (w : World) :
  reachable w ->
  no_stutter (frames w) /\
  lastSentData w = last_frame (frames w) /\
  (lastSentData w = SNull <-> wire w = []).
Proof.
  intros Hr.
  assert (Hi : wire_inv w).
  { induction Hr as [now | w ev Hr IH He].
    - split; [reflexivity|]. intros pre a b post E. destruct pre; discriminate.
    - now apply wire_inv_step. }
  destruct Hi as [L N]. split; [exact N|]. split; [exact L|].
  rewrite L. unfold last_frame, frames. destruct (wire w); simpl; split;
    intros; try reflexivity; discriminate.
Qed.

(* ----------------------------------------------------------------- *)
(** *** Overlapping detections *)

(** X15. The detection loop has no guard against overlap (lines 116-138).
    Once [setup] has started it, every tick that finds the video ready
    starts a detection call, whether or not the calls of earlier ticks
    have settled: after n such ticks in a row, n more calls are in
    flight, and nothing else has changed for the connection, the snapshot
    or [detections]. *)
Theorem detection_ticks_overlap (n : nat) (w : World) :
  reachable w -> socket w <> None ->
  exists d,
    detect_timers w = [{| handle := d; callback := DetectFaces; delay := 100 |}] /\
    inflight (ticks n d w) = (inflight w + n)%nat /\
    same_connection w (ticks n d w) /\
    same_snapshot w (ticks n d w) /\
    detections (ticks n d w) = detections w.
Proof.
  intros Hr Hs.
  destruct (detection_loop_keeps_running_aux Hr Hs) as (d & D & F).
  exists d. split; [exact D|].
  induction n as [|n (I & C & Q & T)].
  - simpl. repeat split; auto.
  - unfold ticks in *. rewrite Nat.iter_succ.
    set (w' := Nat.iter n (handle_event (EvTimer d true)) w) in *.
    assert (F' : find_timer d w'
                 = Some {| handle := d; callback := DetectFaces; delay := 100 |}).
    { unfold find_timer in *. destruct C as (_ & _ & C3 & _). now rewrite C3. }
    assert (E : handle_event (EvTimer d true) w' = set_inflight (S (inflight w')) w').
    { unfold handle_event. simpl. unfold_M. simpl. rewrite F'. reflexivity. }
    rewrite E. simpl. rewrite I.
    destruct C as (C1 & C2 & C3 & C4 & C5 & C6). destruct Q as [Q1 Q2].
    repeat split; auto; lia.
Qed.

End Properties.


(* ================================================================= *)
(** ** The properties at work on the example session *)

Section Instances.
#[local] Existing Instance IntOrNaN.

(** Before [setup] has created a socket, [sendData] is a no-op. *)
Lemma send_while_not_open_is_noop_witness :
  connection_state page_loaded <> Connection OPEN /\
  (sendData example_message page_loaded = (Normal false, page_loaded) /\
   lastSentData (snd (sendData example_message page_loaded)) =
     lastSentData page_loaded).
Proof.
  assert (H : connection_state page_loaded <> Connection OPEN).
  { simpl. discriminate. }
  split; [exact H|].
  apply (@send_while_not_open_is_noop IntOrNaN example_message page_loaded H).
Defined.

(** The scenario of the specification: the record, the record again, the
    record one year older. *)
Lemma idempotent_suppression_witness :
  connection_state connected = Connection OPEN /\
  lastSentData connected <> JSON_stringify example_message /\
  JSON_stringify example_message = JSON_stringify example_message /\
  JSON_stringify older_message <> JSON_stringify example_message /\
  fst (sendData example_message connected) = Normal true /\
  fst (sendData example_message (snd (sendData example_message connected))) = Normal false /\
  fst (sendData older_message
         (snd (sendData example_message (snd (sendData example_message connected)))))
    = Normal true.
Proof.
  assert (H1 : connection_state connected = Connection OPEN) by reflexivity.
  assert (H2 : lastSentData connected <> JSON_stringify example_message).
  { vm_compute. discriminate. }
  assert (H3 : JSON_stringify example_message = JSON_stringify example_message)
    by reflexivity.
  assert (H4 : JSON_stringify older_message <> JSON_stringify example_message).
  { apply strict_neq_true. vm_compute. reflexivity. }
  pose proof (@idempotent_suppression IntOrNaN example_message example_message older_message
                connected H1 H2 H3 H4) as (A & B & C & _).
  exact (conj H1 (conj H2 (conj H3 (conj H4 (conj A (conj B C)))))).
Defined.

(** C1 as stated fails: a message submitted while the connection is closed
    is refused and [lastSentData] stays null instead of taking the message;
    when the retry has reconnected, the identical message is transmitted.
    So it goes in the running sketch: the face drawn during the outage is
    sent by the first draw pass after the reconnection. *)
Lemma dropped_message_leaves_snapshot_alone :
  connection_state disconnected = Connection CLOSED /\
  fst (sendData example_message disconnected) = Normal false /\
  lastSentData (snd (sendData example_message disconnected)) = SNull /\
  lastSentData (snd (sendData example_message disconnected))
    <> JSON_stringify example_message /\
  connection_state (run retry_succeeds (snd (sendData example_message disconnected)))
    = Connection OPEN /\
  fst (sendData example_message
         (run retry_succeeds (snd (sendData example_message disconnected))))
    = Normal true /\
  frames (snd (sendData example_message
                 (run retry_succeeds (snd (sendData example_message disconnected)))))
    = [ToString_strval (JSON_stringify example_message)] /\
  frames (run (retry_succeeds ++ [EvDraw]) disconnected)
    = [ToString_strval (JSON_stringify example_message)].
Proof.
  repeat split; try reflexivity. vm_compute. discriminate.
Qed.

Lemma dropped_message_is_sent_after_reconnect_witness :
  connection_state disconnected <> Connection OPEN /\
  JSON_stringify example_message <> lastSentData disconnected /\
  silent retry_succeeds (snd (sendData example_message disconnected)) = true /\
  connection_state (run retry_succeeds (snd (sendData example_message disconnected)))
    = Connection OPEN /\
  fst (sendData example_message disconnected) = Normal false /\
  lastSentData (snd (sendData example_message disconnected)) = lastSentData disconnected /\
  fst (sendData example_message
         (run retry_succeeds (snd (sendData example_message disconnected))))
    = Normal true.
Proof.
  assert (H1 : connection_state disconnected <> Connection OPEN).
  { vm_compute. discriminate. }
  assert (H2 : JSON_stringify example_message <> lastSentData disconnected).
  { vm_compute. discriminate. }
  assert (H3 : silent retry_succeeds (snd (sendData example_message disconnected))
               = true) by reflexivity.
  assert (H4 : connection_state
                 (run retry_succeeds (snd (sendData example_message disconnected)))
               = Connection OPEN) by reflexivity.
  pose proof (@dropped_message_is_sent_after_reconnect IntOrNaN example_message
                disconnected retry_succeeds H1 H2 H3 H4) as (A & B & _ & C & _).
  exact (conj H1 (conj H2 (conj H3 (conj H4 (conj A (conj B C)))))).
Defined.

(** C3 as stated fails: the connection is open, and the payload that was
    just sent is neither transmitted again nor answered with true. *)
Lemma unchanged_payload_is_refused_while_open :
  connection_state (snd (sendData example_message connected)) = Connection OPEN /\
  fst (sendData example_message (snd (sendData example_message connected)))
    = Normal false /\
  frames (snd (sendData example_message (snd (sendData example_message connected))))
    = frames (snd (sendData example_message connected)).
Proof.
  repeat split; reflexivity.
Qed.

(** C7 as stated fails: for a record without gender data the wire message
    has [undefined] for gender and genderConfidence, so its JSON text is
    that of a message without the two properties; the label unknown and
    the 0 appear in the text on the canvas and in the console message.  And a record without gender
    data whose alignedRect has no box ends the pass with a TypeError: the
    record after it is not processed. *)
Lemma wire_message_gets_no_gender_default :
  (exists m,
     fst (formatDataForTD record_without_gender connected) = Normal m /\
     prop (prop m "face") "gender" = VUndefined /\
     prop (prop m "face") "gender" <> VStr "unknown" /\
     prop (prop m "face") "genderConfidence" = VUndefined /\
     prop (prop m "face") "genderConfidence" <> VNum Number_zero /\
     JSON_stringify m = JSON_stringify message_without_gender /\
     In (Text "Face 1: unknown (0%)")
        (screen (snd (draw_detection 0 record_without_gender connected))) /\
     In (LogSent "📤 Sent face 1 data: unknown (0%)")
        (console (snd (draw_detection 0 record_without_gender connected)))) /\
  prop boxless_record "gender" = VUndefined /\
  fst (forEach draw_detection 0 [boxless_record; example_record] connected)
    = Throw (TypeError "Cannot read properties of undefined") /\
  wire (snd (forEach draw_detection 0 [boxless_record; example_record] connected)) = [].
Proof.
  split.
  - eexists. split; [reflexivity|]. simpl.
    repeat split; try reflexivity; try discriminate.
    + vm_compute. auto.
    + vm_compute. auto 10.
  - repeat split; reflexivity.
Qed.

Lemma missing_gender_is_not_defaulted_on_the_wire_witness :
  has_box record_without_gender = true /\
  (prop record_without_gender "gender" = VUndefined \/
   prop record_without_gender "genderProbability" = VUndefined) /\
  console (snd (draw_detection 0 record_without_gender connected)) =
    (if accepts (message_of (clock connected) record_without_gender) connected
     then console connected
            ++ [LogSent (sent_label 0
                           (display_gender (prop record_without_gender "gender"))
                           (display_confidence
                              (prop record_without_gender "genderProbability")))]
     else console connected)%list /\
  fst (draw_detection 0 record_without_gender connected) = Normal tt /\
  forEach draw_detection 0 [record_without_gender; example_record] connected =
    forEach draw_detection 1 [example_record]
            (snd (draw_detection 0 record_without_gender connected)).
Proof.
  assert (H1 : has_box record_without_gender = true) by reflexivity.
  assert (H2 : prop record_without_gender "gender" = VUndefined \/
               prop record_without_gender "genderProbability" = VUndefined)
    by (left; reflexivity).
  pose proof (@missing_gender_is_not_defaulted_on_the_wire IntOrNaN 0 record_without_gender
                [example_record] connected H1 H2) as (_ & _ & _ & _ & C & _ & A & B).
  exact (conj H1 (conj H2 (conj C (conj A B)))).
Defined.

Lemma formatter_deterministic_witness :
  clock booted = clock connected /\
  fst (formatDataForTD example_record booted) =
    fst (formatDataForTD example_record connected) /\
  serialized (fst (formatDataForTD example_record booted)) =
    serialized (fst (formatDataForTD example_record connected)).
Proof.
  assert (H : clock booted = clock connected) by reflexivity.
  pose proof (@formatter_deterministic IntOrNaN example_record booted connected H) as (A & B & _).
  exact (conj H (conj A B)).
Defined.


(** After the second loss of the connection the frames go on, the
    detection loop ticks, time passes: nothing reconnects. *)
Lemma no_retry_after_reconnect_witness :
  feasible afterwards lost_again = true /\
  connection_state (run afterwards lost_again) = Connection CLOSED /\
  pending_retries (run afterwards lost_again) = [].
Proof.
  unfold lost_again.
  assert (H : feasible afterwards (run lost_twice (initial (Some 1000%Z))) = true).
  { vm_compute. reflexivity. }
  pose proof (@no_retry_after_reconnect IntOrNaN (Some 1000%Z) afterwards H)
    as (_ & _ & _ & _ & A & B & _).
  exact (conj H (conj A B)).
Defined.

(* ----------------------------------------------------------------- *)
(** *** Further properties on the example session *)

Lemma reachable_connected : reachable connected.
Proof.
  unfold connected, booted, page_loaded, run. cbn [fold_left].
  repeat (apply reach_event; [|vm_compute; reflexivity]). constructor.
Qed.

Lemma reachable_disconnected : reachable disconnected.
Proof.
  unfold disconnected. apply reach_event; [apply reachable_connected|].
  vm_compute. reflexivity.
Qed.

Lemma reachable_reconnecting : reachable reconnecting.
Proof.
  unfold reconnecting. apply reach_event; [apply reachable_disconnected|].
  vm_compute. reflexivity.
Qed.

Lemma setup_failure_leaves_sketch_dormant_witness :
  feasible without_faceapi (run [EvSetup false] (initial (Some 1000%Z))) = true /\
  socket (run without_faceapi (run [EvSetup false] (initial (Some 1000%Z)))) = None /\
  wire (run without_faceapi (run [EvSetup false] (initial (Some 1000%Z)))) = [].
Proof.
  assert (H : feasible without_faceapi (run [EvSetup false] (initial (Some 1000%Z)))
              = true).
  { vm_compute. reflexivity. }
  pose proof (@setup_failure_leaves_sketch_dormant IntOrNaN (Some 1000%Z)
                InvalidStateError without_faceapi [EvSetup false]
                (or_introl eq_refl) H) as (_ & A & _ & _ & B & _).
  exact (conj H (conj A B)).
Defined.

Lemma superseded_sockets_are_closed_witness :
  reachable reconnecting /\ one_live_socket reconnecting.
Proof.
  pose proof (@superseded_sockets_are_closed IntOrNaN reconnecting
                reachable_reconnecting) as (A & _).
  exact (conj reachable_reconnecting A).
Defined.

Lemma retry_timer_is_unique_witness :
  reachable reconnecting /\ (List.length (pending_retries reconnecting) <= 1)%nat.
Proof.
  pose proof (@retry_timer_is_unique IntOrNaN reconnecting reachable_reconnecting)
    as (A & _).
  exact (conj reachable_reconnecting A).
Defined.

Lemma first_loss_schedules_one_retry_witness :
  reachable connected /\ reconnectInterval connected = None /\ (1 <= 3)%nat /\
  retrying (next_handle connected) (close_events 3 0 1006%Z EmptyString connected).
Proof.
  assert (H1 : reconnectInterval connected = None) by reflexivity.
  assert (H2 : (1 <= 3)%nat) by lia.
  pose proof (@first_loss_schedules_one_retry IntOrNaN 3 0 1006%Z EmptyString connected
                reachable_connected H1 H2) as A.
  exact (conj reachable_connected (conj H1 (conj H2 A))).
Defined.

Lemma retry_runs_until_open_witness :
  reachable disconnected /\ retrying 2 disconnected /\
  feasible outage disconnected = true /\
  forallb (fun ev => negb (is_open_event ev)) outage = true /\
  retrying 2 (run outage disconnected) /\
  connection_state (handle_event (EvTimer 2 false) (run outage disconnected))
    = Connection CONNECTING.
Proof.
  assert (H1 : retrying 2 disconnected) by (split; reflexivity).
  assert (H2 : feasible outage disconnected = true) by (vm_compute; reflexivity).
  assert (H3 : forallb (fun ev => negb (is_open_event ev)) outage = true)
    by reflexivity.
  pose proof (@retry_runs_until_open IntOrNaN 2%positive outage false disconnected
                reachable_disconnected H1 H2 H3) as (A & _ & _ & B & _).
  exact (conj reachable_disconnected (conj H1 (conj H2 (conj H3 (conj A B))))).
Defined.

Lemma open_event_cancels_retry_witness :
  reachable reconnecting /\ enabled (EvSocketOpen 1) reconnecting = true /\
  connection_state (handle_event (EvSocketOpen 1) reconnecting) = Connection OPEN /\
  pending_retries (handle_event (EvSocketOpen 1) reconnecting) = [].
Proof.
  assert (H : enabled (EvSocketOpen 1) reconnecting = true) by (vm_compute; reflexivity).
  pose proof (@open_event_cancels_retry IntOrNaN 1 reconnecting
                reachable_reconnecting H) as (A & B & _).
  exact (conj reachable_reconnecting (conj H (conj A B))).
Defined.

Lemma detection_loop_keeps_running_witness :
  reachable reconnecting /\ socket reconnecting <> None /\
  exists d,
    detect_timers reconnecting
      = [{| handle := d; callback := DetectFaces; delay := 100 |}] /\
    find_timer d reconnecting
      = Some {| handle := d; callback := DetectFaces; delay := 100 |} /\
    forall ready, enabled (EvTimer d ready) reconnecting = true.
Proof.
  assert (H : socket reconnecting <> None) by (vm_compute; discriminate).
  pose proof (@detection_loop_keeps_running IntOrNaN reconnecting
                reachable_reconnecting) as (_ & A).
  exact (conj reachable_reconnecting (conj H (A H))).
Defined.

Lemma suppression_survives_reconnection_witness :
  connection_state connected = Connection OPEN /\
  silent lost_and_found (snd (sendData example_message connected)) = true /\
  connection_state (run lost_and_found (snd (sendData example_message connected)))
    = Connection OPEN /\
  fst (sendData example_message
         (run lost_and_found (snd (sendData example_message connected))))
    = Normal false.
Proof.
  assert (H1 : connection_state connected = Connection OPEN) by reflexivity.
  assert (H2 : silent lost_and_found (snd (sendData example_message connected)) = true)
    by (vm_compute; reflexivity).
  assert (H3 : connection_state
                 (run lost_and_found (snd (sendData example_message connected)))
               = Connection OPEN) by (vm_compute; reflexivity).
  pose proof (@suppression_survives_reconnection IntOrNaN example_message connected
                lost_and_found H1 H2 H3) as (_ & A & _).
  exact (conj H1 (conj H2 (conj H3 A))).
Defined.

Lemma boxless_record_stops_the_pass_witness :
  boxless boxless_record /\
  exists e, forEach draw_detection 0 [boxless_record; example_record] connected
            = (Throw e, connected).
Proof.
  assert (H : boxless boxless_record).
  { split; [reflexivity|]. split; [|reflexivity].
    eexists. split; reflexivity. }
  pose proof (@boxless_record_stops_the_pass IntOrNaN 0 boxless_record
                [example_record] connected H) as (A & _).
  exact (conj H A).
Defined.

Lemma timestamp_decides_suppression_witness :
  has_box example_record = true /\
  connection_state connected = Connection OPEN /\
  frames (snd (draw_detection 0 example_record
                 (handle_event (EvClock (Some 1100%Z))
                    (snd (draw_detection 0 example_record connected))))) =
    (if strict_neq (JSON_stringify (VNum (Some 1100%Z)))
                   (JSON_stringify (VNum (clock connected)))
     then frames (snd (draw_detection 0 example_record connected))
            ++ [frame_of (Some 1100%Z) example_record]
     else frames (snd (draw_detection 0 example_record connected)))%list.
Proof.
  assert (H1 : has_box example_record = true) by reflexivity.
  assert (H2 : connection_state connected = Connection OPEN) by reflexivity.
  pose proof (@timestamp_decides_suppression IntOrNaN 0 example_record (Some 1100%Z)
                connected H1 H2) as A.
  exact (conj H1 (conj H2 A)).
Defined.

Lemma two_faces_defeat_the_filter_witness :
  has_box example_record = true /\ has_box older_record = true /\
  connection_state drawn_once = Connection OPEN /\
  JSON_stringify (message_of (clock drawn_once) example_record)
    <> JSON_stringify (message_of (clock drawn_once) older_record) /\
  frames (pass [example_record; older_record] drawn_once) =
    (frames drawn_once ++
     (if strict_neq (JSON_stringify (message_of (clock drawn_once) example_record))
                    (lastSentData drawn_once)
      then [frame_of (clock drawn_once) example_record;
            frame_of (clock drawn_once) older_record]
      else [frame_of (clock drawn_once) older_record]))%list /\
  frames (Nat.iter 2 (pass [example_record; older_record])
            (pass [example_record; older_record] drawn_once)) =
    (frames (pass [example_record; older_record] drawn_once)
     ++ List.concat (repeat [frame_of (clock drawn_once) example_record;
                             frame_of (clock drawn_once) older_record] 2))%list.
Proof.
  assert (H1 : has_box example_record = true) by reflexivity.
  assert (H2 : has_box older_record = true) by reflexivity.
  assert (H3 : connection_state drawn_once = Connection OPEN) by reflexivity.
  assert (H5 : JSON_stringify (message_of (clock drawn_once) example_record)
               <> JSON_stringify (message_of (clock drawn_once) older_record)).
  { apply strict_neq_true. vm_compute. reflexivity. }
  pose proof (@two_faces_defeat_the_filter IntOrNaN example_record older_record 2
                drawn_once H1 H2 H3 H5) as (A & B).
  exact (conj H1 (conj H2 (conj H3 (conj H5 (conj A B))))).
Defined.

Lemma reachable_published : reachable published.
Proof.
  unfold published, run. cbn [fold_left].
  do 3 (apply reach_event; [|vm_compute; reflexivity]). apply reachable_connected.
Qed.

Lemma wire_never_stutters_witness :
  reachable published /\ List.length (frames published) = 2%nat /\
  no_stutter (frames published).
Proof.
  pose proof (@wire_never_stutters IntOrNaN published reachable_published)
    as (A & _).
  exact (conj reachable_published (conj eq_refl A)).
Defined.

Lemma detection_ticks_overlap_witness :
  reachable connected /\ socket connected <> None /\
  exists d, detect_timers connected
              = [{| handle := d; callback := DetectFaces; delay := 100 |}] /\
            inflight (ticks 3 d connected) = (inflight connected + 3)%nat.
Proof.
  assert (H : socket connected <> None) by (vm_compute; discriminate).
  pose proof (@detection_ticks_overlap IntOrNaN 3 connected reachable_connected H)
    as (d & A & B & _).
  exact (conj reachable_connected (conj H (ex_intro _ d (conj A B)))).
Defined.

Lemma reachable_drawn_once : reachable drawn_once.
Proof.
  unfold drawn_once. apply reach_event; [apply reachable_connected|].
  vm_compute. reflexivity.
Qed.

(** C5 as stated fails: after one draw pass the connection is open and
    the message of the example face is the snapshot; submitted twice in
    a row from there, it is refused twice. *)
Lemma repeated_message_is_refused_twice :
  reachable drawn_once /\
  connection_state drawn_once = Connection OPEN /\
  lastSentData drawn_once = JSON_stringify example_message /\
  fst (sendData example_message drawn_once) = Normal false /\
  fst (sendData example_message (snd (sendData example_message drawn_once)))
    = Normal false /\
  fst (sendData older_message
         (snd (sendData example_message (snd (sendData example_message drawn_once)))))
    = Normal true.
Proof.
  split; [apply reachable_drawn_once|]. repeat split; vm_compute; reflexivity.
Qed.

End Instances.
